(** * Tag extraction of the sensitivity-analysis dashboard ([app.py])

    A shallow embedding of [parse_features_and_tags] and of the fragments of
    Python's [str] and [re] that it calls, followed by the properties of
    the extractor.

    Texts are modelled as [string], i.e. sequences of 8-bit code points
    (Latin-1).  On that range [str.lower], [str.strip] and the regex class
    [\s] are modelled exactly; code points above 255 are outside the model. *)

From Stdlib Require Import Bool Arith Lia List Ascii String Sorted.
Import ListNotations.
Open Scope string_scope.
Open Scope nat_scope.

(* ================================================================== *)
(** * Python string primitives *)
(* ================================================================== *)

Module Py.

(** Code point of a character. *)
Definition ord (c : ascii) : nat := nat_of_ascii c.

Definition in_range (lo hi : nat) (c : ascii) : bool :=
  (lo <=? ord c) && (ord c <=? hi).

(** [str.lower] on one code point: [A-Z] and the Latin-1 capitals
    U+00C0..U+00DE (without the multiplication sign U+00D7) move up by 32. *)
Definition lower_char (c : ascii) : ascii :=
  if in_range 65 90 c || (in_range 192 222 c && negb (ord c =? 215))
  then ascii_of_nat (ord c + 32)
  else c.

(** [text.lower()] *)
Fixpoint lower (s : string) : string :=
  match s with
  | EmptyString => EmptyString
  | String c s' => String (lower_char c) (lower s')
  end.

(** [str.isspace] on one code point, which is also the regex class [\s]
    of a [str] pattern: TAB..CR, FS..US, SPACE, NEL and NBSP. *)
Definition is_space (c : ascii) : bool :=
  in_range 9 13 c || in_range 28 32 c || (ord c =? 133) || (ord c =? 160).

(** [s.startswith(p)] *)
Fixpoint startswith (p s : string) : bool :=
  match p with
  | EmptyString => true
  | String a p' =>
      match s with
      | EmptyString => false
      | String b s' => Ascii.eqb a b && startswith p' s'
      end
  end.

(** [sub in s]: [sub] occurs at some position of [s]. *)
Fixpoint str_in (sub s : string) : bool :=
  startswith sub s ||
  match s with
  | EmptyString => false
  | String _ s' => str_in sub s'
  end.

(** [s.lstrip()], [s.rstrip()] and [s.strip()] with no argument. *)
Fixpoint lstrip (s : string) : string :=
  match s with
  | EmptyString => EmptyString
  | String c s' => if is_space c then lstrip s' else s
  end.

Fixpoint rstrip (s : string) : string :=
  match s with
  | EmptyString => EmptyString
  | String c s' =>
      match rstrip s' with
      | EmptyString => if is_space c then EmptyString else String c EmptyString
      | r => String c r
      end
  end.

Definition strip (s : string) : string := rstrip (lstrip s).

(** [str.title] on the ASCII letters: a letter that follows a cased
    character is lowered, any other letter is capitalised, and the
    remaining characters are kept.  The extractor only calls it on a
    capture of the class [[a-z\s-]]. *)
Definition is_cased (c : ascii) : bool :=
  in_range 65 90 c || in_range 97 122 c.

Definition upper_char (c : ascii) : ascii :=
  if in_range 97 122 c then ascii_of_nat (ord c - 32) else c.

Fixpoint title_from (previous_is_cased : bool) (s : string) : string :=
  match s with
  | EmptyString => EmptyString
  | String c s' =>
      String (if is_cased c
              then if previous_is_cased then lower_char c else upper_char c
              else c)
             (title_from (is_cased c) s')
  end.

Definition title (s : string) : string := title_from false s.

(** Left-to-right replacement of non-overlapping matches, the scan shared
    by [str.replace] and [re.sub].  [match_len s] is the length of the
    match that starts at the head of [s], if there is one; [skip] counts
    the characters of the current match that are still to be dropped.
    A match of length 0 is treated as no match: neither pattern of the
    extractor can match the empty string. *)
Fixpoint scan_replace (match_len : string -> option nat) (repl : string)
         (skip : nat) (s : string) : string :=
  match s with
  | EmptyString => EmptyString
  | String c s' =>
      match skip with
      | S n => scan_replace match_len repl n s'
      | O =>
          match match_len s with
          | Some (S n) => repl ++ scan_replace match_len repl n s'
          | _ => String c (scan_replace match_len repl 0 s')
          end
      end
  end.

(** [s.replace(old, new)] for a non-empty [old]. *)
Definition replace (old new s : string) : string :=
  scan_replace
    (fun s => if startswith old s then Some (length old) else None)
    new 0 s.

End Py.

(* ================================================================== *)
(** * The fragment of [re] used by the extractor *)
(* ================================================================== *)

Module Re.

(** Patterns: literals, one character of a class, greedy repetition of a
    character class, sequence and the capturing group number 1. *)
Inductive regex : Type :=
| Lit (s : string)
| Class (cls : ascii -> bool)
| Star (cls : ascii -> bool)
| Plus (cls : ascii -> bool)
| Cat (r1 r2 : regex)
| Group1 (r : regex).

(** A match object: the text after the match and [m.group(1)], which is
    [None] when the group took no part in the match. *)
Record match_obj : Type := MatchObj {
  rest : string;
  group1 : option string
}.

(** The literal [p] at the head of [s]: what follows it. *)
Fixpoint lit (p s : string) : option string :=
  match p with
  | EmptyString => Some s
  | String a p' =>
      match s with
      | EmptyString => None
      | String b s' => if Ascii.eqb a b then lit p' s' else None
      end
  end.

(** Greedy [cls*] with backtracking: the longest run first, then one
    character less each time the continuation [k] fails. *)
Fixpoint star (cls : ascii -> bool) (s : string)
         (k : string -> option match_obj) : option match_obj :=
  match s with
  | EmptyString => k s
  | String c s' =>
      if cls c
      then match star cls s' k with
           | Some m => Some m
           | None => k s
           end
      else k s
  end.

Definition class (cls : ascii -> bool) (s : string)
           (k : string -> option match_obj) : option match_obj :=
  match s with
  | EmptyString => None
  | String c s' => if cls c then k s' else None
  end.

Definition plus (cls : ascii -> bool) (s : string)
           (k : string -> option match_obj) : option match_obj :=
  match s with
  | EmptyString => None
  | String c s' => if cls c then star cls s' k else None
  end.

(** The first [n] characters of [s]. *)
Definition take (n : nat) (s : string) : string := substring 0 n s.

(** Backtracking matcher in continuation-passing style.  [g] is the
    current value of group 1; [k] continues with the remaining text. *)
Fixpoint run (r : regex) (s : string) (g : option string)
         (k : string -> option string -> option match_obj)
  : option match_obj :=
  match r with
  | Lit p =>
      match lit p s with
      | Some s' => k s' g
      | None => None
      end
  | Class cls => class cls s (fun s' => k s' g)
  | Star cls => star cls s (fun s' => k s' g)
  | Plus cls => plus cls s (fun s' => k s' g)
  | Cat r1 r2 => run r1 s g (fun s1 g1 => run r2 s1 g1 k)
  | Group1 r1 =>
      run r1 s g
          (fun s' _ => k s' (Some (take (length s - length s') s)))
  end.

(** [pattern.match]: a match anchored at the head of [s]. *)
Definition match_at (r : regex) (s : string) : option match_obj :=
  run r s None (fun s' g => Some (MatchObj s' g)).

(** [re.search(pattern, s)]: the leftmost position with a match. *)
Fixpoint search (r : regex) (s : string) : option match_obj :=
  match match_at r s with
  | Some m => Some m
  | None =>
      match s with
      | EmptyString => None
      | String _ s' => search r s'
      end
  end.

(** [re.sub(pattern, repl, s)] for a [repl] without escapes. *)
Definition sub (r : regex) (repl s : string) : string :=
  Py.scan_replace
    (fun s => match match_at r s with
              | Some m => Some (length s - length (rest m))
              | None => None
              end)
    repl 0 s.

End Re.

(* ================================================================== *)
(** * The extractor *)
(* ================================================================== *)

(** Exceptions and results.  The only operation of the extractor that can
    raise is a method call on [m.group(1)] when the group is [None]. *)
Inductive exn : Type := AttributeError.

Inductive result (A : Type) : Type :=
| Ok (a : A)
| Raise (e : exn).
Arguments Ok {A} a.
Arguments Raise {A} e.

Definition bind {A B : Type} (x : result A) (f : A -> result B) : result B :=
  match x with
  | Ok a => f a
  | Raise e => Raise e
  end.

Notation "x <- e1 ;; e2" := (bind e1 (fun x => e2))
  (at level 61, e1 at next level, right associativity).

(** The dictionary returned by [parse_features_and_tags]. *)
Record ScenarioTags : Type := {
  approach : string;
  fwo : string;
  setoff : string;
  cond_557c : string;
  clause : string;
  label : string
}.

(** The character class [[a-z\s-]]. *)
Definition setoff_cls (c : ascii) : bool :=
  Py.in_range 97 122 c || Py.is_space c || (Py.ord c =? 45).

(** [r"set-off\s*:\s*([a-z\s-]+)"] *)
Definition re_setoff : Re.regex :=
  Re.Cat (Re.Lit "set-off")
 (Re.Cat (Re.Star Py.is_space)
 (Re.Cat (Re.Lit ":")
 (Re.Cat (Re.Star Py.is_space)
         (Re.Group1 (Re.Plus setoff_cls))))).

(** [r"set-off\s*[:]\s*([a-z\s-]+)\s*\|"] *)
Definition re_setoff_pipe : Re.regex :=
  Re.Cat (Re.Lit "set-off")
 (Re.Cat (Re.Star Py.is_space)
 (Re.Cat (Re.Class (Ascii.eqb ":"))
 (Re.Cat (Re.Star Py.is_space)
 (Re.Cat (Re.Group1 (Re.Plus setoff_cls))
 (Re.Cat (Re.Star Py.is_space)
         (Re.Lit "|")))))).

(** [r"\s*\|\s*"] *)
Definition re_pipe : Re.regex :=
  Re.Cat (Re.Star Py.is_space)
 (Re.Cat (Re.Lit "|")
         (Re.Star Py.is_space)).

(** [m.group(1).strip().title()] *)
Definition captured_phrase (m : Re.match_obj) : result string :=
  match Re.group1 m with
  | Some g => Ok (Py.title (Py.strip g))
  | None => Raise AttributeError
  end.

Section Extractor.

(** [t] is the lowered text. *)
Variable t : string.

Definition approach_of : string :=
  if Py.str_in "judgement based" t then "Judgement Based"
  else if Py.str_in "coles based" t then "Coles Based"
  else "Unknown".

Definition fwo_of : string :=
  if Py.str_in "without fwo" t then "Without FWO"
  else if Py.str_in "with fwo" t || Py.str_in "after fwo" t then "With FWO"
  else "Unknown".

(** The keyword fallback; [setoff] keeps its initial value when no
    keyword is found. *)
Definition setoff_keywords : string :=
  if Py.str_in "pay period" t then "Pay Period"
  else if Py.str_in "annual" t then "Annual"
  else if Py.str_in "bi annual" t || Py.str_in "bi-annual" t
          || Py.str_in "biannual" t then "Bi Annual"
  else "Unknown".

Definition setoff_of : result string :=
  if Py.str_in "set-off" t then
    match Re.search re_setoff t with
    | Some m => captured_phrase m
    | None =>
        match Re.search re_setoff_pipe t with
        | Some m2 => captured_phrase m2
        | None => Ok setoff_keywords
        end
    end
  else Ok "Unknown".

Definition cond_557c_of : string :=
  if Py.str_in "557c" t then
    if Py.str_in "all shifts" t then "All Shifts"
    else if Py.str_in "non-clocked" t || Py.str_in "non clocked" t
    then "Non-Clocked Shifts"
    else "557C (Unspecified)"
  else "N/A".

Definition clause_of : string :=
  if Py.str_in "28.11" t then "28.11" else "Unknown".

End Extractor.

(** The short label, computed from the text as given. *)
Definition label_of (text : string) : string :=
  let short := text in
  let short := Py.replace "Apporach" "Approach" short in
  Py.strip (Re.sub re_pipe " | " short).

(** [parse_features_and_tags(text)], the [extract] of the specification:
    the tags are read off the lowered text, the label off the text as
    given.  The set-off step is the only one that goes through a match
    object, hence the only one that could raise. *)
Definition parse_features_and_tags (text : string) : result ScenarioTags :=
  let t := Py.lower text in
  s <- setoff_of t ;;
  Ok {| approach := approach_of t;
        fwo := fwo_of t;
        setoff := s;
        cond_557c := cond_557c_of t;
        clause := clause_of t;
        label := label_of text |}.

(** [kw] occurs in the text when case is ignored: the test [kw in t] of
    the source, for a lower-case keyword [kw]. *)
Definition mentions (kw text : string) : bool :=
  Py.str_in kw (Py.lower text).

(* ================================================================== *)
(** * The consolidated set-off rule of the specification *)
(* ================================================================== *)

(** The design note asks for one capture rule after the set-off marker,
    with the keyword scan only if the capture is empty.  The capture is
    the one of the first pattern; it is empty when the pattern does not
    match or when nothing is left of the capture once it is stripped. *)
Definition setoff_consolidated (t : string) : result string :=
  if Py.str_in "set-off" t then
    match Re.search re_setoff t with
    | Some m =>
        match Re.group1 m with
        | Some g =>
            let phrase := Py.strip g in
            if String.eqb phrase "" then Ok (setoff_keywords t)
            else Ok (Py.title phrase)
        | None => Ok (setoff_keywords t)
        end
    | None => Ok (setoff_keywords t)
    end
  else Ok "Unknown".

(** The same rule with the fallback of the source: the keyword scan runs
    only when the pattern does not match. *)
Definition setoff_single_pattern (t : string) : result string :=
  if Py.str_in "set-off" t then
    match Re.search re_setoff t with
    | Some m => captured_phrase m
    | None => Ok (setoff_keywords t)
    end
  else Ok "Unknown".

(** The first pattern matches [t] and its capture is blank. *)
Definition blank_capture (t : string) : bool :=
  match Re.search re_setoff t with
  | Some m =>
      match Re.group1 m with
      | Some g => String.eqb (Py.strip g) ""
      | None => false
      end
  | None => false
  end.

(* ================================================================== *)
(** * Auxiliary definitions *)
(* ================================================================== *)

(** Whether every match of the pattern passes through group 1. *)
Fixpoint sets_group (r : Re.regex) : bool :=
  match r with
  | Re.Cat r1 r2 => sets_group r1 || sets_group r2
  | Re.Group1 _ => true
  | _ => false
  end.

Definition is_some {A : Type} (o : option A) : bool :=
  match o with Some _ => true | None => false end.

(** [s[n:]] *)
Fixpoint drop (n : nat) (s : string) : string :=
  match n, s with
  | S n', String _ s' => drop n' s'
  | _, _ => s
  end.

(** Every character of [s] satisfies [p]. *)
Fixpoint all_chars (p : ascii -> bool) (s : string) : bool :=
  match s with
  | EmptyString => true
  | String c s' => p c && all_chars p s'
  end.

Definition not_capital_a (c : ascii) : bool := negb (Ascii.eqb c "A").

(** Neither a blank nor a pipe. *)
Definition plain_char (c : ascii) : bool :=
  negb (Py.is_space c) && negb (Ascii.eqb c "|").

(** The two steps of the label cleanup before the final [strip]. *)
Definition fix_spelling (s : string) : string :=
  Py.replace "Apporach" "Approach" s.

Definition space_pipes (s : string) : string :=
  Re.sub re_pipe " | " s.

(** A pipe separator at the head of [s], blanks included: the text that
    follows it. *)
Definition sep_at (s : string) : option string :=
  match Py.lstrip s with
  | String "|" x => Some (Py.lstrip x)
  | _ => None
  end.

(* ================================================================== *)
(** * The data logic of [dashboard] *)
(* ================================================================== *)

Section Dashboard.

(** The type of the [value] column (a float in the source); the code
    modelled here never inspects it. *)
Variable value : Type.

(** One row of the data frame built by [make_df]: the columns of the
    source rows and the tag columns added from the extractor. *)
Record Row : Type := {
  row_category : string;
  row_value : value;
  row_color : string;
  row_features : list string;
  row_tags : ScenarioTags
}.

(** [df[col].dropna().unique()]: the values in order of first
    appearance.  The tag columns never hold a missing value. *)
Fixpoint unique (l : list string) : list string :=
  match l with
  | [] => []
  | x :: l' => x :: filter (fun y => negb (String.eqb y x)) (unique l')
  end.

(** [sorted(xs)] on strings: a stable sort by [<] on code points. *)
Fixpoint insert_sorted (x : string) (l : list string) : list string :=
  match l with
  | [] => [x]
  | y :: l' => if String.ltb x y then x :: l else y :: insert_sorted x l'
  end.

Definition sorted (l : list string) : list string :=
  fold_left (fun acc x => insert_sorted x acc) l [].

(** [["All"] + sorted([x for x in df[col].dropna().unique()])] *)
Definition options (col : ScenarioTags -> string) (df : list Row)
  : list string :=
  "All" :: sorted (unique (map (fun r => col (row_tags r)) df)).

(** [dff[dff[col] == sel]] *)
Definition where_eq (col : ScenarioTags -> string) (sel : string)
           (dff : list Row) : list Row :=
  filter (fun r => String.eqb (col (row_tags r)) sel) dff.

(** The block "Apply filters" of [dashboard]. *)
Definition apply_filters (show_557c_filter : bool)
           (approach_sel fwo_sel setoff_sel cond_sel : string)
           (df : list Row) : list Row :=
  let dff := df in
  let dff := if negb (String.eqb approach_sel "All")
             then where_eq approach approach_sel dff else dff in
  let dff := if negb (String.eqb fwo_sel "All")
             then where_eq fwo fwo_sel dff else dff in
  let dff := if negb (String.eqb setoff_sel "All")
             then where_eq setoff setoff_sel dff else dff in
  let dff := if show_557c_filter && negb (String.eqb cond_sel "All")
             then where_eq cond_557c cond_sel dff else dff in
  dff.

(** The badges of one scenario card. *)
Definition badges (show_557c_filter : bool) (row : Row) : list string :=
  let badges : list string := [] in
  let badges := if negb (String.eqb (approach (row_tags row)) "Unknown")
                then (badges ++ [approach (row_tags row)])%list else badges in
  let badges := if negb (String.eqb (fwo (row_tags row)) "Unknown")
                then (badges ++ [fwo (row_tags row)])%list else badges in
  let badges := if negb (String.eqb (setoff (row_tags row)) "Unknown")
                then (badges ++ [("Set-off: " ++ setoff (row_tags row))%string])%list
                else badges in
  let badges :=
    if show_557c_filter &&
       negb (existsb (String.eqb (cond_557c (row_tags row)))
                     ["N/A"; "Unknown"])
    then (badges ++ [("557C: " ++ cond_557c (row_tags row))%string])%list
    else badges in
  badges.

End Dashboard.

Arguments row_tags {value} r.
Arguments row_category {value} r.
Arguments options {value} col df.
Arguments where_eq {value} col sel dff.
Arguments apply_filters {value} show_557c_filter approach_sel fwo_sel
  setoff_sel cond_sel df.
Arguments badges {value} show_557c_filter row.

(** A row passes the four filters: each selection is "All" or the value
    of the row, the 557C selection counting only when its filter is
    shown. *)
Definition row_matches {value : Type} (show_557c_filter : bool)
           (approach_sel fwo_sel setoff_sel cond_sel : string)
           (row : Row value) : bool :=
  (String.eqb approach_sel "All"
   || String.eqb (approach (row_tags row)) approach_sel)
  && (String.eqb fwo_sel "All"
      || String.eqb (fwo (row_tags row)) fwo_sel)
  && (String.eqb setoff_sel "All"
      || String.eqb (setoff (row_tags row)) setoff_sel)
  && (negb show_557c_filter || String.eqb cond_sel "All"
      || String.eqb (cond_557c (row_tags row)) cond_sel).

(** [a <= b] on strings, as the negation of Python's [b < a]. *)
Definition str_le (a b : string) : Prop := String.ltb b a = false.

(* ================================================================== *)
(** * Auxiliary definitions for the further properties *)
(* ================================================================== *)

(** The longest prefix of [s] in the class [p], and what follows it. *)
Fixpoint take_while (p : ascii -> bool) (s : string) : string :=
  match s with
  | EmptyString => EmptyString
  | String c s' => if p c then String c (take_while p s') else EmptyString
  end.

Fixpoint drop_while (p : ascii -> bool) (s : string) : string :=
  match s with
  | EmptyString => EmptyString
  | String c s' => if p c then drop_while p s' else s
  end.

(** The last character of the run of blanks at the head of [s]. *)
Fixpoint last_blank (s : string) : option ascii :=
  match s with
  | EmptyString => None
  | String c s' =>
      if Py.is_space c
      then match last_blank s' with
           | Some b => Some b
           | None => Some c
           end
      else None
  end.

(** What [match_at re_setoff] computes, without backtracking: after the
    marker, blanks, a colon and blanks, the capture is the run of
    [[a-z\s-]] that starts at the first character that is not a blank;
    if there is no such run, it is the last blank after the colon. *)
Definition setoff_match (s : string) : option Re.match_obj :=
  match Re.lit "set-off" s with
  | None => None
  | Some s1 =>
      match Py.lstrip s1 with
      | String ":" s3 =>
          let x := Py.lstrip s3 in
          match take_while setoff_cls x with
          | EmptyString =>
              match last_blank s3 with
              | Some b => Some (Re.MatchObj x (Some (String b "")))
              | None => None
              end
          | g => Some (Re.MatchObj (drop_while setoff_cls x) (Some g))
          end
      | _ => None
      end
  end.

(** The first and the last character of [s] are not blanks. *)
Definition head_clean (s : string) : bool :=
  match s with
  | EmptyString => true
  | String c _ => negb (Py.is_space c)
  end.

Fixpoint last_clean (s : string) : bool :=
  match s with
  | EmptyString => true
  | String c EmptyString => negb (Py.is_space c)
  | String _ s' => last_clean s'
  end.

(** ASCII letters, blanks and the hyphen. *)
Definition tag_char (c : ascii) : bool :=
  Py.is_cased c || Py.is_space c || (Py.ord c =? 45).

(** [s] without its blanks. *)
Fixpoint remove_blanks (s : string) : string :=
  match s with
  | EmptyString => EmptyString
  | String c s' =>
      if Py.is_space c then remove_blanks s' else String c (remove_blanks s')
  end.

(** Every pipe of [s] has a space on both sides; [prev_space] tells
    whether the character before [s] is a space. *)
Definition starts_space (s : string) : bool :=
  match s with
  | String " " _ => true
  | _ => false
  end.

Fixpoint ends_space (s : string) : bool :=
  match s with
  | EmptyString => false
  | String c EmptyString => Ascii.eqb c " "
  | String _ s' => ends_space s'
  end.

Fixpoint spaced (prev_space : bool) (s : string) : bool :=
  match s with
  | EmptyString => true
  | String c s' =>
      (if Ascii.eqb c "|" then prev_space && starts_space s' else true)
      && spaced (Ascii.eqb c " ") s'
  end.

(** The five tags of a record, without the label. *)
Definition five_tags (r : ScenarioTags) : list string :=
  [approach r; fwo r; setoff r; cond_557c r; clause r].

(* ================================================================== *)
(** * Facts about strings *)
(* ================================================================== *)

Section StringFacts.

Lemma app_nil_r (s : string) : s ++ "" = s.
Proof. induction s as [|c s IH]; simpl; [reflexivity | now rewrite IH]. Qed.

Lemma app_assoc (a b c : string) : (a ++ b) ++ c = a ++ (b ++ c).
Proof. induction a as [|x a IH]; simpl; [reflexivity | now rewrite IH]. Qed.

Lemma length_app (a b : string) : length (a ++ b) = length a + length b.
Proof. induction a as [|x a IH]; simpl; [reflexivity | now rewrite IH]. Qed.

Lemma startswith_spec (p s : string) :
  Py.startswith p s = true <-> exists v, s = p ++ v.
Proof.
  revert s; induction p as [|a p IH]; intros s; simpl.
  - split; [intros _; now exists s | reflexivity].
  - destruct s as [|b s].
    + split; [discriminate | intros [v Hv]; discriminate].
    + rewrite andb_true_iff, Ascii.eqb_eq, IH. split.
      * intros [-> [v ->]]. now exists v.
      * intros [v Hv]. injection Hv as -> ->. split; [reflexivity | now exists v].
Qed.

Lemma str_in_spec (p s : string) :
  Py.str_in p s = true <-> exists u v, s = u ++ p ++ v.
Proof.
  induction s as [|c s IH].
  - simpl. rewrite orb_false_r, startswith_spec. split.
    + intros [v Hv]. now exists "", v.
    + intros (u & v & H). destruct u; [now exists v | discriminate].
  - simpl. rewrite orb_true_iff, startswith_spec, IH. split.
    + intros [[v Hv] | (u & v & Hv)].
      * now exists "", v.
      * exists (String c u), v. simpl. now rewrite Hv.
    + intros (u & v & H). destruct u as [|d u].
      * left. now exists v.
      * right. simpl in H. injection H as _ ->. now exists u, v.
Qed.

(** A text that contains [q] contains every substring [p] of [q]. *)
Lemma str_in_trans (p q s : string) :
  Py.str_in p q = true -> Py.str_in q s = true -> Py.str_in p s = true.
Proof.
  rewrite !str_in_spec. intros (u & v & ->) (u' & v' & ->).
  exists (u' ++ u), (v ++ v'). now rewrite !app_assoc.
Qed.

Lemma str_in_cons p c s :
  Py.str_in p s = true -> Py.str_in p (String c s) = true.
Proof. intros H. cbn [Py.str_in]. rewrite H. apply orb_true_r. Qed.

Lemma str_in_suffix p u s :
  Py.str_in p s = true -> Py.str_in p (u ++ s) = true.
Proof.
  intros H. induction u as [|c u IH]; [exact H|].
  cbn [append]. now apply str_in_cons.
Qed.

End StringFacts.

(* ================================================================== *)
(** * Facts about the matcher *)
(* ================================================================== *)

Section MatcherFacts.

Lemma star_inv cls s k m :
  Re.star cls s k = Some m -> exists s', k s' = Some m.
Proof.
  induction s as [|c s IH]; simpl.
  - intros H. now exists "".
  - destruct (cls c).
    + destruct (Re.star cls s k) as [m'|] eqn:E.
      * intros [= ->]. now apply IH.
      * intros H. now exists (String c s).
    + intros H. now exists (String c s).
Qed.

(** A successful run ends in a call of its continuation; group 1 is set
    there if it was set before or if the pattern sets it. *)
Lemma run_inv r : forall s g k m,
  Re.run r s g k = Some m ->
  exists s' g', k s' g' = Some m /\
                (is_some g || sets_group r = true -> is_some g' = true).
Proof.
  induction r as [p|cls|cls|cls|r1 IH1 r2 IH2|r1 IH1]; intros s g k m; simpl.
  - destruct (Re.lit p s) as [s'|]; [|discriminate].
    intros H. exists s', g. now rewrite orb_false_r.
  - destruct s as [|c s]; simpl; [discriminate|].
    destruct (cls c); [|discriminate].
    intros H. exists s, g. now rewrite orb_false_r.
  - intros H. apply star_inv in H as [s' H].
    exists s', g. now rewrite orb_false_r.
  - destruct s as [|c s]; simpl; [discriminate|].
    destruct (cls c); [|discriminate].
    intros H. apply star_inv in H as [s' H].
    exists s', g. now rewrite orb_false_r.
  - intros H. apply IH1 in H as (s1 & g1 & H & Hg1).
    apply IH2 in H as (s2 & g2 & H & Hg2).
    exists s2, g2. split; [exact H|].
    intros Hg. apply Hg2. rewrite orb_true_iff.
    rewrite orb_assoc, orb_true_iff in Hg. destruct Hg as [Hg|Hg].
    + left. now apply Hg1.
    + now right.
  - intros H. apply IH1 in H as (s1 & g1 & H & _).
    eexists _, _. split; [exact H | reflexivity].
Qed.

Lemma match_at_group r s m :
  sets_group r = true -> Re.match_at r s = Some m ->
  is_some (Re.group1 m) = true.
Proof.
  intros Hr H. apply run_inv in H as (s' & g' & [= <-] & Hg).
  simpl. apply Hg. now rewrite Hr.
Qed.

Lemma search_group r s m :
  sets_group r = true -> Re.search r s = Some m ->
  is_some (Re.group1 m) = true.
Proof.
  intros Hr. induction s as [|c s IH]; cbn [Re.search].
  - destruct (Re.match_at r "") eqn:E; [|discriminate].
    intros [= <-]. now apply match_at_group with (r := r) (s := "").
  - destruct (Re.match_at r (String c s)) eqn:E.
    + intros [= <-]. now apply match_at_group with (r := r) (s := String c s).
    + exact IH.
Qed.

(** Success of a greedy star is monotone in its continuation. *)
Lemma star_success cls s (k k' : string -> option Re.match_obj) :
  (forall s', k s' <> None -> k' s' <> None) ->
  Re.star cls s k <> None -> Re.star cls s k' <> None.
Proof.
  intros Hk. induction s as [|c s IH]; simpl.
  - apply Hk.
  - destruct (cls c); [|apply Hk].
    destruct (Re.star cls s k) eqn:E.
    + intros _. destruct (Re.star cls s k') eqn:E'; [discriminate|].
      exfalso. apply IH; [discriminate | reflexivity].
    + intros H. destruct (Re.star cls s k'); [discriminate | now apply Hk].
Qed.

End MatcherFacts.

Section SetoffPatterns.

(** The pipe-terminated pattern extends the first one, so it cannot match
    where the first one does not. *)
Lemma match_at_pipe_dead s :
  Re.match_at re_setoff s = None -> Re.match_at re_setoff_pipe s = None.
Proof.
  intros H. destruct (Re.match_at re_setoff_pipe s) eqn:E; [|reflexivity].
  exfalso. revert H. 
  assert (E' : Re.match_at re_setoff_pipe s <> None) by (rewrite E; discriminate).
  clear E. revert E'. unfold Re.match_at, re_setoff_pipe, re_setoff.
  cbn [Re.run].
  destruct (Re.lit "set-off" s) as [s1|]; [|auto].
  apply star_success. intros s2.
  destruct s2 as [|c s2]; [auto|].
  unfold Re.class. cbn [Re.lit].
  destruct (Ascii.eqb ":" c); [|auto].
  apply star_success. intros s3.
  unfold Re.plus. destruct s3 as [|d s3]; [auto|].
  destruct (setoff_cls d); [|auto].
  apply star_success. intros s4 _. discriminate.
Qed.

Lemma search_pipe_dead t :
  Re.search re_setoff t = None -> Re.search re_setoff_pipe t = None.
Proof.
  induction t as [|c t IH]; cbn [Re.search].
  - destruct (Re.match_at re_setoff "") eqn:E; [discriminate|].
    intros _. now rewrite (match_at_pipe_dead _ E).
  - destruct (Re.match_at re_setoff (String c t)) eqn:E; [discriminate|].
    intros H. rewrite (match_at_pipe_dead _ E). now apply IH.
Qed.

(** The first pattern only matches a text that contains "set-off". *)
Lemma lit_startswith p s s' :
  Re.lit p s = Some s' -> Py.startswith p s = true.
Proof.
  revert s. induction p as [|a p IH]; intros s; [reflexivity|].
  destruct s as [|b s]; [discriminate|]. cbn [Re.lit Py.startswith].
  destruct (Ascii.eqb a b); [apply IH | discriminate].
Qed.

Lemma search_setoff_mentions t m :
  Re.search re_setoff t = Some m -> Py.str_in "set-off" t = true.
Proof.
  induction t as [|c t IH]; cbn [Re.search].
  - vm_compute. discriminate.
  - destruct (Re.match_at re_setoff (String c t)) eqn:Em.
    + intros _. unfold Re.match_at, re_setoff in Em. cbn [Re.run] in Em.
      destruct (Re.lit "set-off" (String c t)) eqn:El; [|discriminate].
      cbn [Py.str_in]. now rewrite (lit_startswith _ _ _ El).
    + intros H. apply str_in_cons. now apply IH.
Qed.


(** What a greedy star consumes belongs to its class. *)
Lemma star_split cls s k m :
  Re.star cls s k = Some m ->
  exists u s', s = u ++ s' /\ all_chars cls u = true /\ k s' = Some m.
Proof.
  induction s as [|c s IH]; cbn [Re.star].
  - intros H. now exists "", "".
  - destruct (cls c) eqn:Hc.
    + destruct (Re.star cls s k) as [m'|] eqn:E.
      * intros [= ->]. destruct (IH eq_refl) as (u & s' & -> & Hu & Hk).
        exists (String c u), s'. cbn [all_chars]. now rewrite Hc, Hu.
      * intros H. now exists "", (String c s).
    + intros H. now exists "", (String c s).
Qed.

Lemma take_app u s : Re.take (length (u ++ s) - length s) (u ++ s) = u.
Proof.
  rewrite length_app. replace (length u + length s - length s)
    with (length u) by lia.
  unfold Re.take. induction u as [|c u IH]; cbn [append length substring].
  - now destruct s.
  - now rewrite IH.
Qed.

Lemma search_match_at r t m :
  Re.search r t = Some m -> exists s, Re.match_at r s = Some m.
Proof.
  induction t as [|c t IH]; cbn [Re.search].
  - destruct (Re.match_at r "") eqn:E; [|discriminate].
    intros [= <-]. now exists "".
  - destruct (Re.match_at r (String c t)) eqn:E; [|exact IH].
    intros [= <-]. now exists (String c t).
Qed.

(** The capture of the first pattern is a non-empty run of the class
    [[a-z\s-]], the domain on which [title] is modelled. *)
Lemma setoff_capture_class t m :
  Re.search re_setoff t = Some m ->
  exists g, Re.group1 m = Some g /\ g <> "" /\
            all_chars setoff_cls g = true.
Proof.
  intros H. apply search_match_at in H as [s H].
  unfold Re.match_at, re_setoff in H. cbn [Re.run] in H.
  destruct (Re.lit "set-off" s) as [s1|]; [|discriminate].
  apply star_inv in H as [s2 H].
  destruct (Re.lit ":" s2) as [s3|]; [|discriminate].
  apply star_inv in H as [s4 H].
  unfold Re.plus in H. destruct s4 as [|d s4]; [discriminate|].
  destruct (setoff_cls d) eqn:Hd; [|discriminate].
  apply star_split in H as (u & s' & -> & Hu & [= <-]).
  exists (String d u). cbn [Re.group1]. split.
  - f_equal. exact (take_app (String d u) s').
  - split; [discriminate|]. cbn [all_chars]. now rewrite Hd, Hu.
Qed.

(** [m.group(1)] is never [None] after a match of the first pattern, so
    the set-off step never raises. *)
Lemma setoff_of_ok t : exists s, setoff_of t = Ok s.
Proof.
  unfold setoff_of. destruct (Py.str_in "set-off" t); [|now eexists].
  destruct (Re.search re_setoff t) as [m|] eqn:E.
  - apply search_group in E; [|reflexivity].
    unfold captured_phrase. destruct (Re.group1 m); [now eexists | discriminate].
  - rewrite (search_pipe_dead _ E). now eexists.
Qed.

Lemma parse_ok text :
  exists s, setoff_of (Py.lower text) = Ok s /\
    parse_features_and_tags text =
    Ok {| approach := approach_of (Py.lower text);
          fwo := fwo_of (Py.lower text);
          setoff := s;
          cond_557c := cond_557c_of (Py.lower text);
          clause := clause_of (Py.lower text);
          label := label_of text |}.
Proof.
  destruct (setoff_of_ok (Py.lower text)) as [s Hs]. exists s.
  split; [exact Hs|]. unfold parse_features_and_tags. now rewrite Hs.
Qed.

End SetoffPatterns.

(* ================================================================== *)
(** * Properties of the extractor *)
(* ================================================================== *)

Section Examples.

(** C3: the first Woolworths scenario is tagged Judgement Based, Without
    FWO, Pay Period, no 557C condition, clause 28.11, and its label has
    the misspelling corrected and the pipe spacing normalised. *)
Theorem extract_judgement_without_fwo_pay_period :
  parse_features_and_tags
    "Judgement Based Clause 28.11 Apporach | Without FWO | Set-off: Pay Period"
  = Ok {| approach := "Judgement Based";
          fwo := "Without FWO";
          setoff := "Pay Period";
          cond_557c := "N/A";
          clause := "28.11";
          label :=
            "Judgement Based Clause 28.11 Approach | Without FWO | Set-off: Pay Period" |}.
Proof. vm_compute. reflexivity. Qed.

(** C6: the empty text yields Unknown for approach, FWO, set-off and
    clause, N/A for the 557C condition, and the empty label. *)
Theorem extract_empty :
  parse_features_and_tags ""
  = Ok {| approach := "Unknown";
          fwo := "Unknown";
          setoff := "Unknown";
          cond_557c := "N/A";
          clause := "Unknown";
          label := "" |}.
Proof. vm_compute. reflexivity. Qed.

(** C9: on "Set-off: 6 months" the capture pattern matches with a capture
    of one blank, so the set-off tag is the empty string: it is neither
    Unknown nor one of the keyword values, the keyword scan being skipped
    after a successful match. *)
Theorem setoff_blank_capture :
  exists text m r,
    mentions "set-off:" text = true /\
    Re.search re_setoff (Py.lower text) = Some m /\
    Re.group1 m = Some " " /\
    Re.rest m = "6 months" /\
    parse_features_and_tags text = Ok r /\
    setoff r = "" /\
    existsb (String.eqb (setoff r))
            ["Unknown"; "Pay Period"; "Annual"; "Bi Annual"] = false.
Proof.
  exists "Set-off: 6 months". eexists. eexists.
  repeat split; vm_compute; reflexivity.
Qed.

End Examples.

Section Tags.

(** C4: "without fwo" is tested first and wins, also when the text matches
    the other FWO phrases; otherwise "with fwo" or "after fwo" gives With
    FWO; otherwise the tag is Unknown. *)
Theorem fwo_without_first (text : string) :
  exists r, parse_features_and_tags text = Ok r /\
    (mentions "without fwo" text = true -> fwo r = "Without FWO") /\
    (mentions "without fwo" text = false ->
     mentions "with fwo" text || mentions "after fwo" text = true ->
     fwo r = "With FWO") /\
    (mentions "without fwo" text = false ->
     mentions "with fwo" text = false ->
     mentions "after fwo" text = false ->
     fwo r = "Unknown").
Proof.
  destruct (parse_ok text) as (s & _ & Hp).
  eexists. split; [exact Hp|]. unfold mentions, fwo_of. simpl.
  repeat split.
  - now intros ->.
  - now intros -> ->.
  - now intros -> -> ->.
Qed.

Lemma fwo_without_first_witness :
  (exists r, parse_features_and_tags "With FWO, after FWO | Without FWO" = Ok r
             /\ fwo r = "Without FWO") /\
  (exists r, parse_features_and_tags "Set-off: Annual | After FWO" = Ok r
             /\ fwo r = "With FWO") /\
  (exists r, parse_features_and_tags "Set-off: Annual" = Ok r
             /\ fwo r = "Unknown").
Proof.
  split; [|split].
  - destruct (fwo_without_first "With FWO, after FWO | Without FWO")
      as (r & Hr & H1 & _).
    exists r. split; [exact Hr | apply H1; reflexivity].
  - destruct (fwo_without_first "Set-off: Annual | After FWO")
      as (r & Hr & _ & H2 & _).
    exists r. split; [exact Hr | apply H2; reflexivity].
  - destruct (fwo_without_first "Set-off: Annual") as (r & Hr & _ & _ & H3).
    exists r. split; [exact Hr | apply H3; reflexivity].
Defined.

(** C5: without "557c" the condition is N/A; with "557c", "all shifts"
    gives All Shifts, else "non-clocked" or "non clocked" gives Non-Clocked
    Shifts, else the condition is 557C (Unspecified). *)
Theorem cond_557c_cases (text : string) :
  exists r, parse_features_and_tags text = Ok r /\
    (mentions "557c" text = false -> cond_557c r = "N/A") /\
    (mentions "557c" text = true ->
     mentions "all shifts" text = true ->
     cond_557c r = "All Shifts") /\
    (mentions "557c" text = true ->
     mentions "all shifts" text = false ->
     mentions "non-clocked" text || mentions "non clocked" text = true ->
     cond_557c r = "Non-Clocked Shifts") /\
    (mentions "557c" text = true ->
     mentions "all shifts" text = false ->
     mentions "non-clocked" text = false ->
     mentions "non clocked" text = false ->
     cond_557c r = "557C (Unspecified)").
Proof.
  destruct (parse_ok text) as (s & _ & Hp).
  eexists. split; [exact Hp|]. unfold mentions, cond_557c_of. simpl.
  repeat split.
  - now intros ->.
  - now intros -> ->.
  - now intros -> -> ->.
  - now intros -> -> -> ->.
Qed.

Lemma cond_557c_cases_witness :
  (exists r, parse_features_and_tags "Set-off: Annual | all shifts" = Ok r
             /\ cond_557c r = "N/A") /\
  (exists r, parse_features_and_tags
               "557C condition on all shifts, non-clocked" = Ok r
             /\ cond_557c r = "All Shifts") /\
  (exists r, parse_features_and_tags
               "557C condition on non-clocked shifts | After FWO" = Ok r
             /\ cond_557c r = "Non-Clocked Shifts") /\
  (exists r, parse_features_and_tags "557C condition" = Ok r
             /\ cond_557c r = "557C (Unspecified)").
Proof.
  split; [|split; [|split]].
  - destruct (cond_557c_cases "Set-off: Annual | all shifts")
      as (r & Hr & H & _).
    exists r. split; [exact Hr | apply H; reflexivity].
  - destruct (cond_557c_cases "557C condition on all shifts, non-clocked")
      as (r & Hr & _ & H & _).
    exists r. split; [exact Hr | apply H; reflexivity].
  - destruct (cond_557c_cases
                "557C condition on non-clocked shifts | After FWO")
      as (r & Hr & _ & _ & H & _).
    exists r. split; [exact Hr | apply H; reflexivity].
  - destruct (cond_557c_cases "557C condition") as (r & Hr & _ & _ & _ & H).
    exists r. split; [exact Hr | apply H; reflexivity].
Defined.

End Tags.

Section SetoffFallback.

(** Every bi-annual spelling contains "annual". *)
Lemma biannual_mentions_annual t :
  Py.str_in "bi annual" t || Py.str_in "bi-annual" t
  || Py.str_in "biannual" t = true ->
  Py.str_in "annual" t = true.
Proof.
  rewrite !orb_true_iff. intros [[H|H]|H];
    (eapply str_in_trans; [|exact H]); reflexivity.
Qed.

Lemma setoff_keywords_never_biannual t :
  String.eqb (setoff_keywords t) "Bi Annual" = false.
Proof.
  unfold setoff_keywords.
  destruct (Py.str_in "pay period" t); [reflexivity|].
  destruct (Py.str_in "annual" t) eqn:Ha; [reflexivity|].
  destruct (Py.str_in "bi annual" t || Py.str_in "bi-annual" t
            || Py.str_in "biannual" t) eqn:Hb; [|reflexivity].
  apply biannual_mentions_annual in Hb. congruence.
Qed.

(** C1: what the keyword fallback does.  When the text mentions "set-off"
    and the capture pattern does not match, "pay period" gives Pay Period,
    else "annual" gives Annual, also inside a bi-annual spelling: a text
    with "bi-annual" and without "pay period" is tagged Annual, and the
    fallback never produces Bi Annual. *)
Theorem keyword_fallback_annual_shadows_biannual (text : string) :
  mentions "set-off" text = true ->
  Re.search re_setoff (Py.lower text) = None ->
  exists r, parse_features_and_tags text = Ok r /\
    (mentions "pay period" text = true -> setoff r = "Pay Period") /\
    (mentions "pay period" text = false ->
     mentions "annual" text = true -> setoff r = "Annual") /\
    (mentions "pay period" text = false ->
     mentions "bi-annual" text = true -> setoff r = "Annual") /\
    String.eqb (setoff r) "Bi Annual" = false.
Proof.
  unfold mentions. intros Hs Hm.
  assert (E : setoff_of (Py.lower text) = Ok (setoff_keywords (Py.lower text))).
  { unfold setoff_of. now rewrite Hs, Hm, (search_pipe_dead _ Hm). }
  exists {| approach := approach_of (Py.lower text);
            fwo := fwo_of (Py.lower text);
            setoff := setoff_keywords (Py.lower text);
            cond_557c := cond_557c_of (Py.lower text);
            clause := clause_of (Py.lower text);
            label := label_of text |}.
  split; [unfold parse_features_and_tags; now rewrite E|].
  cbn [setoff]. repeat split.
  - unfold setoff_keywords. now intros ->.
  - unfold setoff_keywords. now intros -> ->.
  - intros Hp Hb. unfold setoff_keywords. rewrite Hp.
    rewrite (biannual_mentions_annual (Py.lower text)); [reflexivity|].
    rewrite Hb. now rewrite orb_true_r.
  - apply setoff_keywords_never_biannual.
Qed.

Lemma keyword_fallback_annual_shadows_biannual_witness :
  exists r, parse_features_and_tags "Set-off bi-annual" = Ok r /\
            setoff r = "Annual".
Proof.
  destruct (keyword_fallback_annual_shadows_biannual "Set-off bi-annual")
    as (r & Hr & _ & _ & H & _); [reflexivity | reflexivity |].
  exists r. split; [exact Hr | apply H; reflexivity].
Defined.

End SetoffFallback.

Section Totality.

(** C2: the extractor returns a record for every text and never raises;
    each tag is one of its listed values, every unmatched case is the
    sentinel Unknown or N/A, and the same text gives the same record. *)
Theorem extract_total_deterministic (text : string) :
  exists r, parse_features_and_tags text = Ok r /\
    In (approach r) ["Judgement Based"; "Coles Based"; "Unknown"] /\
    In (fwo r) ["Without FWO"; "With FWO"; "Unknown"] /\
    In (cond_557c r)
       ["All Shifts"; "Non-Clocked Shifts"; "557C (Unspecified)"; "N/A"] /\
    In (clause r) ["28.11"; "Unknown"] /\
    label r = label_of text /\
    (mentions "judgement based" text = false ->
     mentions "coles based" text = false -> approach r = "Unknown") /\
    (mentions "without fwo" text = false ->
     mentions "with fwo" text = false ->
     mentions "after fwo" text = false -> fwo r = "Unknown") /\
    (mentions "set-off" text = false -> setoff r = "Unknown") /\
    (mentions "set-off" text = true ->
     Re.search re_setoff (Py.lower text) = None ->
     mentions "pay period" text = false ->
     mentions "annual" text = false -> setoff r = "Unknown") /\
    (mentions "557c" text = false -> cond_557c r = "N/A") /\
    (mentions "28.11" text = false -> clause r = "Unknown") /\
    (forall text', text' = text -> parse_features_and_tags text' = Ok r).
Proof.
  destruct (parse_ok text) as (s & Hs & Hp).
  eexists. split; [exact Hp|]. unfold mentions. cbn.
  repeat split.
  - unfold approach_of.
    destruct (Py.str_in "judgement based" _); [now left|].
    destruct (Py.str_in "coles based" _); [right; now left | do 2 right; now left].
  - unfold fwo_of.
    destruct (Py.str_in "without fwo" _); [now left|].
    destruct (_ || _); [right; now left | do 2 right; now left].
  - unfold cond_557c_of.
    destruct (Py.str_in "557c" _); [|do 3 right; now left].
    destruct (Py.str_in "all shifts" _); [now left|].
    destruct (_ || _); [right; now left | do 2 right; now left].
  - unfold clause_of.
    destruct (Py.str_in "28.11" _); [now left | right; now left].
  - unfold approach_of. now intros -> ->.
  - unfold fwo_of. now intros -> -> ->.
  - intros H. unfold setoff_of in Hs. rewrite H in Hs. congruence.
  - intros H Hm Hp' Ha. unfold setoff_of in Hs.
    rewrite H, Hm, (search_pipe_dead _ Hm) in Hs.
    injection Hs as <-. unfold setoff_keywords. rewrite Hp', Ha.
    destruct (_ || _) eqn:Hb; [|reflexivity].
    apply biannual_mentions_annual in Hb. congruence.
  - unfold cond_557c_of. now intros ->.
  - unfold clause_of. now intros ->.
  - intros text' ->. exact Hp.
Qed.

Lemma extract_total_deterministic_witness :
  (exists r, parse_features_and_tags "" = Ok r /\
     approach r = "Unknown" /\ fwo r = "Unknown" /\ setoff r = "Unknown" /\
     cond_557c r = "N/A" /\ clause r = "Unknown" /\
     parse_features_and_tags "" = Ok r) /\
  (exists r, parse_features_and_tags "Set-off to be agreed" = Ok r /\
     setoff r = "Unknown").
Proof.
  split.
  - destruct (extract_total_deterministic "")
      as (r & Hr & _ & _ & _ & _ & _ & Ha & Hf & Hs & _ & Hc & Hk & Hd).
    exists r. split; [exact Hr|].
    split; [apply Ha; reflexivity|].
    split; [apply Hf; reflexivity|].
    split; [apply Hs; reflexivity|].
    split; [apply Hc; reflexivity|].
    split; [apply Hk; reflexivity|].
    apply Hd. reflexivity.
  - destruct (extract_total_deterministic "Set-off to be agreed")
      as (r & Hr & _ & _ & _ & _ & _ & _ & _ & _ & Hs & _).
    exists r. split; [exact Hr|]. apply Hs; reflexivity.
Defined.

End Totality.

Section Consolidation.

(** C7, the claim as stated fails: on "Set-off: 6 months" the source keeps
    the blank capture and returns the empty string, while the consolidated
    rule falls back to the keyword scan and returns Unknown. *)
Lemma setoff_consolidated_differs :
  setoff_of (Py.lower "Set-off: 6 months") = Ok "" /\
  setoff_consolidated (Py.lower "Set-off: 6 months") = Ok "Unknown" /\
  ~ (forall text : string,
       setoff_consolidated (Py.lower text) = setoff_of (Py.lower text)).
Proof.
  split; [vm_compute; reflexivity|].
  split; [vm_compute; reflexivity|].
  intros H. specialize (H "Set-off: 6 months").
  vm_compute in H. discriminate.
Qed.

(** C7, amended: one pattern is enough.  The first pattern followed by
    the keyword scan when it does not match computes the set-off tag of
    the source for every text, the pipe-terminated pattern being dead;
    the consolidated rule agrees with the source on every text whose
    capture is not blank, and on a blank capture the source returns the
    empty string where the consolidated rule returns the keyword value. *)
Theorem setoff_single_pattern_equiv (text : string) :
  setoff_single_pattern (Py.lower text) = setoff_of (Py.lower text) /\
  (blank_capture (Py.lower text) = false ->
   setoff_consolidated (Py.lower text) = setoff_of (Py.lower text)) /\
  (blank_capture (Py.lower text) = true ->
   setoff_of (Py.lower text) = Ok "" /\
   setoff_consolidated (Py.lower text)
   = Ok (setoff_keywords (Py.lower text))).
Proof.
  generalize (Py.lower text) as t. intros t.
  unfold setoff_single_pattern, setoff_consolidated, setoff_of, blank_capture.
  destruct (Re.search re_setoff t) as [m|] eqn:E.
  - pose proof (search_group re_setoff t m eq_refl E) as Hg.
    unfold captured_phrase.
    destruct (Re.group1 m) as [g|]; [clear Hg | discriminate].
    rewrite (search_setoff_mentions _ _ E).
    split; [reflexivity|]. split.
    + now intros ->.
    + intros Hb. rewrite Hb. apply String.eqb_eq in Hb. rewrite Hb.
      split; reflexivity.
  - rewrite (search_pipe_dead _ E).
    split; [reflexivity|]. split; [reflexivity | discriminate].
Qed.

Lemma setoff_single_pattern_equiv_witness :
  setoff_consolidated (Py.lower "With FWO | Set-off: Bi Annual")
  = setoff_of (Py.lower "With FWO | Set-off: Bi Annual") /\
  setoff_of (Py.lower "Set-off: 6 months") = Ok "".
Proof.
  split.
  - apply (setoff_single_pattern_equiv "With FWO | Set-off: Bi Annual").
    reflexivity.
  - apply (setoff_single_pattern_equiv "Set-off: 6 months").
    reflexivity.
Defined.

End Consolidation.

(* ================================================================== *)
(** * The label cleanup *)
(* ================================================================== *)

Section Scanning.

Lemma drop_0 s : drop 0 s = s.
Proof. now destruct s. Qed.

Lemma drop_app u v : drop (length u) (u ++ v) = v.
Proof. induction u as [|c u IH]; simpl; [apply drop_0 | exact IH]. Qed.

(** Dropping the rest of a match is the same as resuming after it. *)
Lemma scan_replace_skip f repl s : forall k,
  Py.scan_replace f repl k s = Py.scan_replace f repl 0 (drop k s).
Proof.
  induction s as [|c s IH]; intros [|k]; try reflexivity.
  cbn [Py.scan_replace drop]. apply IH.
Qed.

Lemma lstrip_suffix s : exists u, s = u ++ Py.lstrip s.
Proof.
  induction s as [|c s [u IH]]; simpl.
  - now exists "".
  - destruct (Py.is_space c).
    + exists (String c u). simpl. now rewrite <- IH.
    + now exists "".
Qed.

Lemma lstrip_idem s : Py.lstrip (Py.lstrip s) = Py.lstrip s.
Proof.
  induction s as [|c s IH]; simpl; [reflexivity|].
  destruct (Py.is_space c) eqn:E; [exact IH|]. simpl. now rewrite E.
Qed.

(** A greedy star whose continuation cannot fail takes the whole run. *)
Lemma star_space_total (f : string -> Re.match_obj) s :
  Re.star Py.is_space s (fun s' => Some (f s')) = Some (f (Py.lstrip s)).
Proof.
  induction s as [|c s IH]; simpl; [reflexivity|].
  destruct (Py.is_space c); [now rewrite IH | reflexivity].
Qed.

(** A greedy star of blanks before a pipe: giving back a blank never
    helps, so the pipe must follow the whole run. *)
Lemma star_space_pipe (k : string -> option Re.match_obj) s :
  Re.star Py.is_space s
    (fun s1 => match Re.lit "|" s1 with Some s2 => k s2 | None => None end)
  = match Py.lstrip s with
    | String "|" x => k x
    | _ => None
    end.
Proof.
  induction s as [|c s IH]; [reflexivity|].
  cbn [Re.star Py.lstrip]. destruct (Py.is_space c) eqn:E.
  - rewrite IH.
    destruct (match Py.lstrip s with String "|" x => k x | _ => None end);
      [reflexivity|].
    cbn [Re.lit]. destruct (Ascii.eqb "|" c) eqn:Ec; [|reflexivity].
    apply Ascii.eqb_eq in Ec. subst c. discriminate.
  - cbn [Re.lit]. destruct (Ascii.eqb "|" c) eqn:Ec.
    + apply Ascii.eqb_eq in Ec. now subst c.
    + destruct c as [[] [] [] [] [] [] [] []]; try reflexivity.
      discriminate.
Qed.

Lemma match_at_pipe s :
  Re.match_at re_pipe s =
  match sep_at s with
  | Some after => Some (Re.MatchObj after None)
  | None => None
  end.
Proof.
  unfold Re.match_at, re_pipe, sep_at. cbn [Re.run].
  rewrite (star_space_pipe
             (fun s2 => Re.star Py.is_space s2
                          (fun s3 => Some (Re.MatchObj s3 None)))).
  destruct (Py.lstrip s) as [|c x]; [reflexivity|].
  destruct c as [[] [] [] [] [] [] [] []]; try reflexivity.
  apply star_space_total.
Qed.

(** The text after a separator is a proper suffix. *)
Lemma sep_at_suffix s after :
  sep_at s = Some after -> exists u, s = u ++ after /\ 0 < length u.
Proof.
  unfold sep_at. destruct (lstrip_suffix s) as [u Hu].
  destruct (Py.lstrip s) as [|c x]; [discriminate|].
  destruct (lstrip_suffix x) as [w Hw].
  destruct c as [[] [] [] [] [] [] [] []]; try discriminate.
  intros [= <-]. exists (u ++ String "|" w). split.
  - rewrite Hu at 1. rewrite Hw at 1. rewrite app_assoc. reflexivity.
  - rewrite length_app. simpl. lia.
Qed.

Lemma space_pipes_sep s after :
  sep_at s = Some after -> space_pipes s = " | " ++ space_pipes after.
Proof.
  intros H. destruct (sep_at_suffix _ _ H) as (u & -> & Hu).
  unfold space_pipes, Re.sub.
  destruct u as [|c u]; [simpl in Hu; lia|].
  cbn [append Py.scan_replace]. rewrite match_at_pipe.
  change (String c (u ++ after)) with (String c u ++ after). rewrite H.
  cbn [Re.rest]. rewrite length_app.
  replace (length (String c u) + length after - length after)
    with (S (length u)) by (cbn [length]; lia).
  rewrite scan_replace_skip, drop_app. reflexivity.
Qed.

Lemma space_pipes_keep c s :
  sep_at (String c s) = None ->
  space_pipes (String c s) = String c (space_pipes s).
Proof.
  intros H. unfold space_pipes, Re.sub. cbn [Py.scan_replace].
  rewrite match_at_pipe, H. reflexivity.
Qed.

End Scanning.

Section Strip.

Lemma rstrip_cons_congr c a b :
  Py.rstrip a = Py.rstrip b ->
  Py.rstrip (String c a) = Py.rstrip (String c b).
Proof. intros H. simpl. now rewrite H. Qed.

Lemma rstrip_app_congr u a b :
  Py.rstrip a = Py.rstrip b -> Py.rstrip (u ++ a) = Py.rstrip (u ++ b).
Proof.
  intros H. induction u as [|c u IH]; [exact H|].
  cbn [append]. now apply rstrip_cons_congr.
Qed.

Lemma rstrip_cons_nonspace c s :
  Py.is_space c = false ->
  Py.rstrip (String c s) = String c (Py.rstrip s).
Proof.
  intros Hc. simpl. rewrite Hc. now destruct (Py.rstrip s).
Qed.

(** Stripping on the left and on the right commute. *)
Lemma lstrip_rstrip s : Py.lstrip (Py.rstrip s) = Py.rstrip (Py.lstrip s).
Proof.
  induction s as [|c s IH]; [reflexivity|].
  destruct (Py.is_space c) eqn:Hc.
  - cbn [Py.lstrip]. rewrite Hc, <- IH. cbn [Py.rstrip].
    destruct (Py.rstrip s) as [|d r]; [now rewrite Hc|].
    cbn [Py.lstrip]. now rewrite Hc.
  - cbn [Py.lstrip]. rewrite Hc. rewrite rstrip_cons_nonspace by exact Hc.
    cbn [Py.lstrip]. now rewrite Hc.
Qed.

Lemma rstrip_prefix s : exists w, s = Py.rstrip s ++ w.
Proof.
  induction s as [|c s [w IH]]; [now exists ""|].
  cbn [Py.rstrip]. destruct (Py.rstrip s) as [|d r] eqn:E.
  - destruct (Py.is_space c).
    + now exists (String c s).
    + exists w. simpl. f_equal. exact IH.
  - exists w. simpl. f_equal. exact IH.
Qed.

Lemma sep_at_space c s : Py.is_space c = true -> sep_at (String c s) = sep_at s.
Proof. intros Hc. unfold sep_at. cbn [Py.lstrip]. now rewrite Hc. Qed.

Lemma sep_at_nonspace c s :
  Py.is_space c = false ->
  sep_at (String c s) = if Ascii.eqb c "|" then Some (Py.lstrip s) else None.
Proof.
  intros Hc. unfold sep_at. cbn [Py.lstrip]. rewrite Hc.
  destruct c as [[] [] [] [] [] [] [] []]; reflexivity.
Qed.

(** Stripping on the right does not create or remove a leading
    separator. *)
Lemma sep_at_rstrip s :
  sep_at (Py.rstrip s) =
  match sep_at s with
  | Some after => Some (Py.rstrip after)
  | None => None
  end.
Proof.
  unfold sep_at. rewrite lstrip_rstrip.
  destruct (Py.lstrip s) as [|c x] eqn:E; [reflexivity|].
  assert (Hc : Py.is_space c = false).
  { destruct s as [|d s]; [discriminate|].
    clear -E. revert d E. induction s as [|e s IH]; intros d; simpl.
    - destruct (Py.is_space d) eqn:Hd; [discriminate|]. now intros [= <- _].
    - destruct (Py.is_space d) eqn:Hd; [|now intros [= <- _]].
      apply IH. }
  rewrite rstrip_cons_nonspace by exact Hc.
  destruct c as [[] [] [] [] [] [] [] []]; try reflexivity.
  now rewrite lstrip_rstrip.
Qed.

End Strip.

Section PipeSpacing.

(** Induction along the scan of [re.sub]: either a separator starts here
    and the scan resumes after it, or one character is copied. *)
Lemma space_pipes_ind (P : string -> Prop) :
  P "" ->
  (forall c s, sep_at (String c s) = None -> P s -> P (String c s)) ->
  (forall s after, sep_at s = Some after -> P after -> P s) ->
  forall s, P s.
Proof.
  intros Hnil Hkeep Hsep s.
  remember (length s) as n eqn:Hn.
  revert s Hn. induction n as [n IH] using lt_wf_ind. intros s Hn.
  destruct (sep_at s) as [after|] eqn:E.
  - apply (Hsep _ _ E). destruct (sep_at_suffix _ _ E) as (u & Hu & Hlen).
    apply (IH (length after)); [|reflexivity].
    subst n. rewrite Hu, length_app. lia.
  - destruct s as [|c s]; [exact Hnil|].
    apply (Hkeep _ _ E). apply (IH (length s)); [|reflexivity].
    subst n. simpl. lia.
Qed.

(** The scan leaves the absence of a leading separator unchanged. *)
Lemma sep_at_space_pipes_none s :
  sep_at s = None -> sep_at (space_pipes s) = None.
Proof.
  induction s as [|c s IH]; [reflexivity|].
  intros H. rewrite (space_pipes_keep _ _ H).
  destruct (Py.is_space c) eqn:Hc.
  - rewrite sep_at_space in * by exact Hc. now apply IH.
  - rewrite sep_at_nonspace in * by exact Hc.
    destruct (Ascii.eqb c "|"); [discriminate | reflexivity].
Qed.

Lemma space_pipes_idem_aux s :
  space_pipes (space_pipes s) = space_pipes s /\
  (Py.lstrip s = s ->
   space_pipes (Py.lstrip (space_pipes s)) = space_pipes s).
Proof.
  induction s as [|c s E [IHa IHb]|s after E [IHa IHb]] using space_pipes_ind.
  - split; reflexivity.
  - rewrite (space_pipes_keep _ _ E).
    assert (E' : sep_at (String c (space_pipes s)) = None).
    { destruct (Py.is_space c) eqn:Hc.
      - rewrite sep_at_space in * by exact Hc.
        now apply sep_at_space_pipes_none.
      - rewrite sep_at_nonspace in * by exact Hc.
        destruct (Ascii.eqb c "|"); [discriminate | reflexivity]. }
    split.
    + rewrite (space_pipes_keep _ _ E'). now rewrite IHa.
    + intros Hl. cbn [Py.lstrip] in *.
      destruct (Py.is_space c) eqn:Hc.
      * exfalso. destruct (lstrip_suffix s) as [u Hu].
        apply (f_equal length) in Hl. rewrite Hu in Hl at 2.
        simpl in Hl. rewrite length_app in Hl. lia.
      * rewrite (space_pipes_keep _ _ E'). now rewrite IHa.
  - rewrite (space_pipes_sep _ _ E).
    assert (Hafter : Py.lstrip after = after).
    { unfold sep_at in E. destruct (Py.lstrip s) as [|c x]; [discriminate|].
      destruct c as [[] [] [] [] [] [] [] []]; try discriminate.
      injection E as <-. apply lstrip_idem. }
    specialize (IHb Hafter).
    assert (E1 : sep_at (" | " ++ space_pipes after)
                 = Some (Py.lstrip (space_pipes after))) by reflexivity.
    assert (E2 : sep_at ("| " ++ space_pipes after)
                 = Some (Py.lstrip (space_pipes after))) by reflexivity.
    split.
    + rewrite (space_pipes_sep _ _ E1). now rewrite IHb.
    + intros _. change (Py.lstrip (" | " ++ space_pipes after))
        with ("| " ++ space_pipes after).
      rewrite (space_pipes_sep _ _ E2). now rewrite IHb.
Qed.

(** The pipe spacing is idempotent. *)
Lemma space_pipes_idem s : space_pipes (space_pipes s) = space_pipes s.
Proof. apply space_pipes_idem_aux. Qed.

End PipeSpacing.

Section StripAndPipes.

(** Blanks before the text do not change what follows them in the
    result. *)
Lemma lstrip_space_pipes_lstrip s :
  Py.lstrip (space_pipes (Py.lstrip s)) = Py.lstrip (space_pipes s).
Proof.
  induction s as [|c s IH]; [reflexivity|].
  cbn [Py.lstrip]. destruct (Py.is_space c) eqn:Hc; [|reflexivity].
  rewrite IH. destruct (sep_at (String c s)) as [after|] eqn:E.
  - rewrite (space_pipes_sep _ _ E).
    rewrite sep_at_space in E by exact Hc.
    now rewrite (space_pipes_sep _ _ E).
  - rewrite (space_pipes_keep _ _ E). cbn [Py.lstrip]. now rewrite Hc.
Qed.

(** Nor do blanks after the text. *)
Lemma rstrip_space_pipes_rstrip s :
  Py.rstrip (space_pipes (Py.rstrip s)) = Py.rstrip (space_pipes s).
Proof.
  induction s as [|c s E IH|s after E IH] using space_pipes_ind.
  - reflexivity.
  - rewrite (space_pipes_keep _ _ E).
    destruct (Py.rstrip (String c s)) as [|d r] eqn:Er.
    + (* the whole text is blank *)
      cbn [Py.rstrip] in Er.
      destruct (Py.rstrip s) eqn:Es; [|discriminate].
      destruct (Py.is_space c) eqn:Hc; [|discriminate].
      change (space_pipes "") with "" in *. cbn [Py.rstrip] in *.
      now rewrite <- IH, Hc.
    + assert (Hd : d = c /\
                   (r = Py.rstrip s \/ Py.rstrip s = "" /\ r = "")).
      { cbn [Py.rstrip] in Er. destruct (Py.rstrip s) eqn:Es.
        - destruct (Py.is_space c); [discriminate|].
          injection Er as <- <-. split; [reflexivity | now left].
        - injection Er as <- <-. split; [reflexivity | now left]. }
      destruct Hd as [-> Hr].
      assert (Hr' : r = Py.rstrip s) by (destruct Hr as [?|[-> ->]]; easy).
      subst r. clear Hr.
      pose proof (sep_at_rstrip (String c s)) as E'.
      rewrite Er, E in E'.
      rewrite (space_pipes_keep _ _ E').
      now apply rstrip_cons_congr.
  - pose proof (sep_at_rstrip s) as E'. rewrite E in E'.
    rewrite (space_pipes_sep _ _ E), (space_pipes_sep _ _ E').
    now apply rstrip_app_congr.
Qed.

Lemma strip_space_pipes_idem s :
  Py.strip (space_pipes (Py.strip (space_pipes s)))
  = Py.strip (space_pipes s).
Proof.
  unfold Py.strip.
  rewrite <- (lstrip_rstrip (space_pipes (Py.rstrip _))).
  rewrite rstrip_space_pipes_rstrip.
  rewrite lstrip_rstrip.
  rewrite lstrip_space_pipes_lstrip.
  now rewrite space_pipes_idem.
Qed.

End StripAndPipes.

Section Spelling.

Lemma fix_spelling_hit s :
  Py.startswith "Apporach" s = true ->
  fix_spelling s = "Approach" ++ fix_spelling (drop 8 s).
Proof.
  intros H. unfold fix_spelling, Py.replace.
  destruct s as [|c s]; [discriminate|].
  cbn [Py.scan_replace]. rewrite H. cbn [length].
  now rewrite scan_replace_skip.
Qed.

Lemma fix_spelling_miss c s :
  Py.startswith "Apporach" (String c s) = false ->
  fix_spelling (String c s) = String c (fix_spelling s).
Proof.
  intros H. unfold fix_spelling, Py.replace.
  cbn [Py.scan_replace]. now rewrite H.
Qed.

Lemma length_drop_le n s : length (drop n s) <= length s.
Proof.
  revert s. induction n as [|n IH]; intros [|c s]; simpl; try lia.
  specialize (IH s). lia.
Qed.

(** Induction along the scan of [str.replace]. *)
Lemma fix_spelling_ind (P : string -> Prop) :
  P "" ->
  (forall c s, Py.startswith "Apporach" (String c s) = false ->
               P s -> P (String c s)) ->
  (forall s, Py.startswith "Apporach" s = true -> P (drop 8 s) -> P s) ->
  forall s, P s.
Proof.
  intros Hnil Hmiss Hhit s.
  remember (length s) as n eqn:Hn.
  revert s Hn. induction n as [n IH] using lt_wf_ind. intros s Hn.
  destruct s as [|c s]; [exact Hnil|].
  destruct (Py.startswith "Apporach" (String c s)) eqn:E.
  - apply (Hhit _ E). apply (IH (length (drop 8 (String c s)))); [|reflexivity].
    subst n. change (drop 8 (String c s)) with (drop 7 s).
    pose proof (length_drop_le 7 s). cbn [length]. lia.
  - apply (Hmiss _ _ E). apply (IH (length s)); [|reflexivity].
    subst n. simpl. lia.
Qed.

(** A prefix without a capital A in the corrected text was in the text:
    the correction inserts nothing that does not start with one. *)
Lemma startswith_fix_spelling u : forall s,
  all_chars not_capital_a u = true ->
  Py.startswith u (fix_spelling s) = true -> Py.startswith u s = true.
Proof.
  induction u as [|a u IH]; intros s Hu; [reflexivity|].
  cbn [all_chars] in Hu. apply andb_true_iff in Hu as [Ha Hu].
  destruct s as [|c s]; [discriminate|].
  destruct (Py.startswith "Apporach" (String c s)) eqn:E.
  - rewrite (fix_spelling_hit _ E). cbn [append Py.startswith].
    unfold not_capital_a in Ha. apply negb_true_iff in Ha.
    rewrite Ascii.eqb_sym in Ha. rewrite Ascii.eqb_sym, Ha. discriminate.
  - rewrite (fix_spelling_miss _ _ E). cbn [Py.startswith].
    rewrite !andb_true_iff. intros [-> H]. split; [reflexivity|].
    now apply IH.
Qed.

(** No occurrence of the misspelling is left after the correction. *)
Lemma fix_spelling_clean s : Py.str_in "Apporach" (fix_spelling s) = false.
Proof.
  induction s as [|c s E IH|s E IH] using fix_spelling_ind.
  - reflexivity.
  - rewrite (fix_spelling_miss _ _ E). cbn [Py.str_in]. rewrite IH, orb_false_r.
    destruct (Py.startswith "Apporach" (String c (fix_spelling s))) eqn:E';
      [|reflexivity].
    cbn [Py.startswith] in E, E'.
    apply andb_true_iff in E' as [Hc E']. rewrite Hc in E. cbn [andb] in E.
    apply (startswith_fix_spelling "pporach") in E'; [|reflexivity].
    cbn [Py.startswith] in E'. congruence.
  - rewrite (fix_spelling_hit _ E). exact IH.
Qed.

(** A text without the exact misspelling is left as it is. *)
Lemma fix_spelling_id s :
  Py.str_in "Apporach" s = false -> fix_spelling s = s.
Proof.
  induction s as [|c s IH]; [reflexivity|].
  cbn [Py.str_in]. rewrite orb_false_iff. intros [E H].
  rewrite (fix_spelling_miss _ _ E). now rewrite IH.
Qed.

(** An occurrence of the misspelling cannot straddle the start of a
    later one. *)
Lemma startswith_before_misspelling u v :
  Py.startswith "Apporach" (u ++ "Apporach" ++ v) = true ->
  u = "" \/ Py.startswith "Apporach" u = true.
Proof.
  destruct u as [|c0 u]; [now left|]. right. revert H.
  do 7 (destruct u as [|? u];
        [cbn; rewrite ?andb_false_r; discriminate|]).
  cbn. trivial.
Qed.

(** Every occurrence is corrected: the correction distributes over an
    occurrence of the misspelling, wherever it stands. *)
Lemma fix_spelling_app u v :
  fix_spelling (u ++ "Apporach" ++ v)
  = fix_spelling u ++ "Approach" ++ fix_spelling v.
Proof.
  induction u as [|c u E IH|u E IH] using fix_spelling_ind.
  - exact (fix_spelling_hit ("Apporach" ++ v) eq_refl).
  - rewrite (fix_spelling_miss _ _ E).
    assert (H : fix_spelling (String c (u ++ "Apporach" ++ v))
                = String c (fix_spelling (u ++ "Apporach" ++ v))).
    { apply fix_spelling_miss.
      destruct (Py.startswith "Apporach" (String c (u ++ "Apporach" ++ v)))
        eqn:E'; [|reflexivity].
      apply (startswith_before_misspelling (String c u)) in E' as [?|E'];
        [discriminate | congruence]. }
    change (fix_spelling (String c (u ++ "Apporach" ++ v))
            = String c (fix_spelling u ++ "Approach" ++ fix_spelling v)).
    now rewrite H, IH.
  - apply startswith_spec in E as [w ->].
    change (drop 8 ("Apporach" ++ w)) with w in IH.
    assert (H1 : fix_spelling (("Apporach" ++ w) ++ "Apporach" ++ v)
                 = "Approach" ++ fix_spelling (w ++ "Apporach" ++ v))
      by exact (fix_spelling_hit (("Apporach" ++ w) ++ "Apporach" ++ v)
                                 eq_refl).
    assert (H2 : fix_spelling ("Apporach" ++ w)
                 = "Approach" ++ fix_spelling w)
      by exact (fix_spelling_hit ("Apporach" ++ w) eq_refl).
    rewrite H1, H2, IH. now rewrite app_assoc.
Qed.

End Spelling.

Section Label.

(** A prefix of plain characters in the spaced text was in the text: the
    spacing only inserts and removes blanks and pipes. *)
Lemma startswith_space_pipes u : forall s,
  all_chars plain_char u = true ->
  Py.startswith u (space_pipes s) = true -> Py.startswith u s = true.
Proof.
  induction u as [|a u IH]; intros s Hu; [reflexivity|].
  cbn [all_chars] in Hu. apply andb_true_iff in Hu as [Ha Hu].
  destruct s as [|c s]; [discriminate|].
  destruct (sep_at (String c s)) as [after|] eqn:E.
  - rewrite (space_pipes_sep _ _ E). cbn [append Py.startswith].
    rewrite andb_true_iff, Ascii.eqb_eq. intros [-> _]. discriminate.
  - rewrite (space_pipes_keep _ _ E). cbn [Py.startswith].
    rewrite !andb_true_iff. intros [-> H]. split; [reflexivity|].
    now apply IH.
Qed.

Lemma str_in_space_pipes s :
  Py.str_in "Apporach" (space_pipes s) = true ->
  Py.str_in "Apporach" s = true.
Proof.
  induction s as [|c s E IH|s after E IH] using space_pipes_ind.
  - discriminate.
  - rewrite (space_pipes_keep _ _ E). cbn [Py.str_in].
    rewrite !orb_true_iff. intros [H|H]; [left | right; now apply IH].
    cbn [Py.startswith] in *.
    apply andb_true_iff in H as [Hc H]. rewrite Hc. cbn [andb].
    now apply (startswith_space_pipes "pporach") in H.
  - rewrite (space_pipes_sep _ _ E).
    change (Py.str_in "Apporach" (" | " ++ space_pipes after))
      with (Py.str_in "Apporach" (space_pipes after)).
    intros H. apply IH in H.
    destruct (sep_at_suffix _ _ E) as (u & -> & _).
    now apply str_in_suffix.
Qed.

Lemma str_in_strip p s :
  Py.str_in p (Py.strip s) = true -> Py.str_in p s = true.
Proof.
  rewrite !str_in_spec. intros (u & v & H).
  destruct (lstrip_suffix s) as [a Ha].
  destruct (rstrip_prefix (Py.lstrip s)) as [b Hb].
  unfold Py.strip in H. rewrite H in Hb. rewrite Hb in Ha.
  exists (a ++ u), (v ++ b). rewrite Ha. now rewrite !app_assoc.
Qed.

Lemma label_of_steps text :
  label_of text = Py.strip (space_pipes (fix_spelling text)).
Proof. reflexivity. Qed.

(** The label never contains the misspelling. *)
Lemma label_of_clean text : Py.str_in "Apporach" (label_of text) = false.
Proof.
  rewrite label_of_steps.
  destruct (Py.str_in "Apporach" (Py.strip _)) eqn:E; [|reflexivity].
  apply str_in_strip, str_in_space_pipes in E.
  now rewrite fix_spelling_clean in E.
Qed.

Lemma label_of_idem text : label_of (label_of text) = label_of text.
Proof.
  rewrite (label_of_steps (label_of text)).
  rewrite (fix_spelling_id _ (label_of_clean text)).
  rewrite label_of_steps. apply strip_space_pipes_idem.
Qed.

(** C8: the label cleanup is idempotent: cleaning a label again returns
    it unchanged, and extracting from the label of a text gives that
    label back. *)
Theorem label_cleanup_idempotent (text : string) :
  label_of (label_of text) = label_of text /\
  exists r r',
    parse_features_and_tags text = Ok r /\
    parse_features_and_tags (label r) = Ok r' /\
    label r' = label r.
Proof.
  split; [apply label_of_idem|].
  destruct (parse_ok text) as (s & _ & Hp).
  destruct (parse_ok (label_of text)) as (s' & _ & Hp').
  eexists. eexists. split; [exact Hp|]. split; [exact Hp'|].
  cbn [label]. apply label_of_idem.
Qed.

(** C10: the correction of the misspelling is global and case-sensitive.
    The label is the stripped, pipe-spaced corrected text; the correction
    rewrites the exact spelling "Apporach" at every occurrence, so that
    none is left in the label, and leaves a text without that exact
    spelling as it is: "apporach" and "APPORACH" stay in the label, while
    the approach tag is found whatever the case. *)
Theorem misspelling_fix_global_case_sensitive :
  (forall text, exists r,
     parse_features_and_tags text = Ok r /\
     label r = Py.strip (space_pipes (fix_spelling text)) /\
     Py.str_in "Apporach" (label r) = false) /\
  (forall u v,
     fix_spelling (u ++ "Apporach" ++ v)
     = fix_spelling u ++ "Approach" ++ fix_spelling v) /\
  (forall text,
     Py.str_in "Apporach" text = false ->
     fix_spelling text = text /\
     label_of text = Py.strip (space_pipes text)) /\
  label_of "Coles Based apporach | APPORACH"
  = "Coles Based apporach | APPORACH" /\
  parse_features_and_tags "JUDGEMENT BASED APPORACH"
  = Ok {| approach := "Judgement Based";
          fwo := "Unknown";
          setoff := "Unknown";
          cond_557c := "N/A";
          clause := "Unknown";
          label := "JUDGEMENT BASED APPORACH" |}.
Proof.
  split; [|split; [|split; [|split]]].
  - intros text. destruct (parse_ok text) as (s & _ & Hp).
    eexists. split; [exact Hp|]. cbn [label].
    split; [apply label_of_steps | apply label_of_clean].
  - apply fix_spelling_app.
  - intros text H. split; [now apply fix_spelling_id|].
    rewrite label_of_steps. now rewrite fix_spelling_id.
  - vm_compute. reflexivity.
  - vm_compute. reflexivity.
Qed.

Lemma misspelling_fix_global_case_sensitive_witness :
  fix_spelling "apporach" = "apporach" /\
  label_of "apporach" = Py.strip (space_pipes "apporach").
Proof.
  destruct misspelling_fix_global_case_sensitive as (_ & _ & H & _).
  apply (H "apporach"). reflexivity.
Defined.

End Label.

(* ================================================================== *)
(** * Further properties of the extractor *)
(* ================================================================== *)

Section CaseOfTheText.

Lemma lower_char_idem c : Py.lower_char (Py.lower_char c) = Py.lower_char c.
Proof. destruct c as [[] [] [] [] [] [] [] []]; reflexivity. Qed.

Lemma lower_idem s : Py.lower (Py.lower s) = Py.lower s.
Proof.
  induction s as [|c s IH]; [reflexivity|].
  cbn [Py.lower]. now rewrite lower_char_idem, IH.
Qed.

(** The tags other than the label are read off the lowered text only. *)
Lemma five_tags_of_lower text text' :
  Py.lower text' = Py.lower text ->
  exists r r',
    parse_features_and_tags text = Ok r /\
    parse_features_and_tags text' = Ok r' /\
    five_tags r' = five_tags r.
Proof.
  intros H.
  destruct (parse_ok text) as (s & Hs & Hp).
  destruct (parse_ok text') as (s' & Hs' & Hp').
  eexists. eexists. split; [exact Hp|]. split; [exact Hp'|].
  rewrite H in *. unfold five_tags. cbn.
  rewrite Hs in Hs'. now injection Hs' as ->.
Qed.

(** X1: the five tags do not depend on the case of the text: two texts
    with the same lowering get the same approach, FWO, set-off, 557C and
    clause tags, and so do a text and its lowering. *)
Theorem tags_ignore_case (text : string) :
  (forall text', Py.lower text' = Py.lower text ->
     exists r r',
       parse_features_and_tags text = Ok r /\
       parse_features_and_tags text' = Ok r' /\
       five_tags r' = five_tags r) /\
  (exists r r',
     parse_features_and_tags text = Ok r /\
     parse_features_and_tags (Py.lower text) = Ok r' /\
     five_tags r' = five_tags r).
Proof.
  split.
  - intros text'. apply five_tags_of_lower.
  - apply five_tags_of_lower. apply lower_idem.
Qed.

Lemma tags_ignore_case_witness :
  exists r r',
    parse_features_and_tags "Coles Based | After FWO | Set-off: Annual" = Ok r /\
    parse_features_and_tags "COLES BASED | after fwo | SET-OFF: annual" = Ok r' /\
    five_tags r' = five_tags r.
Proof.
  apply (tags_ignore_case "Coles Based | After FWO | Set-off: Annual").
  reflexivity.
Defined.

(** X2: the approach tag is Judgement Based exactly when the text
    mentions "judgement based", Coles Based exactly when it mentions
    "coles based" and not "judgement based", and Unknown exactly when it
    mentions neither. *)
Theorem approach_cases (text : string) :
  exists r, parse_features_and_tags text = Ok r /\
    String.eqb (approach r) "Judgement Based"
    = mentions "judgement based" text /\
    String.eqb (approach r) "Coles Based"
    = negb (mentions "judgement based" text) && mentions "coles based" text /\
    String.eqb (approach r) "Unknown"
    = negb (mentions "judgement based" text)
      && negb (mentions "coles based" text).
Proof.
  destruct (parse_ok text) as (s & _ & Hp).
  eexists. split; [exact Hp|]. unfold mentions, approach_of. cbn [approach].
  destruct (Py.str_in "judgement based" _), (Py.str_in "coles based" _);
    repeat split.
Qed.

(** A keyword without cased characters is found in the lowered text
    exactly when it is in the text. *)
Lemma startswith_lower p :
  (forall a c, In a (list_ascii_of_string p) ->
               Ascii.eqb a (Py.lower_char c) = Ascii.eqb a c) ->
  forall s, Py.startswith p (Py.lower s) = Py.startswith p s.
Proof.
  induction p as [|a p IH]; intros Hp s; [reflexivity|].
  destruct s as [|c s]; [reflexivity|].
  cbn [Py.lower Py.startswith].
  rewrite Hp by (now left). rewrite IH; [reflexivity|].
  intros b d Hb. apply Hp. now right.
Qed.

Lemma str_in_lower p :
  (forall a c, In a (list_ascii_of_string p) ->
               Ascii.eqb a (Py.lower_char c) = Ascii.eqb a c) ->
  forall s, Py.str_in p (Py.lower s) = Py.str_in p s.
Proof.
  intros Hp s. induction s as [|c s IH].
  - reflexivity.
  - change (Py.lower (String c s))
      with (String (Py.lower_char c) (Py.lower s)).
    cbn [Py.str_in]. rewrite IH.
    change (String (Py.lower_char c) (Py.lower s))
      with (Py.lower (String c s)).
    now rewrite (startswith_lower p Hp (String c s)).
Qed.

Lemma clause_chars_uncased a c :
  In a (list_ascii_of_string "28.11") ->
  Ascii.eqb a (Py.lower_char c) = Ascii.eqb a c.
Proof.
  cbn. intros [<-|[<-|[<-|[<-|[<-|[]]]]]];
    destruct c as [[] [] [] [] [] [] [] []]; reflexivity.
Qed.

(** X3: the clause tag is decided by the text as given: it is "28.11"
    when the text contains "28.11" and Unknown otherwise, the lowering
    making no difference for this keyword. *)
Theorem clause_on_raw_text (text : string) :
  exists r, parse_features_and_tags text = Ok r /\
    clause r = if Py.str_in "28.11" text then "28.11" else "Unknown".
Proof.
  destruct (parse_ok text) as (s & _ & Hp).
  eexists. split; [exact Hp|]. cbn [clause]. unfold clause_of.
  now rewrite (str_in_lower "28.11" clause_chars_uncased).
Qed.

End CaseOfTheText.

Section CapturePattern.

Lemma take_drop_while p s : s = take_while p s ++ drop_while p s.
Proof.
  induction s as [|c s IH]; [reflexivity|].
  cbn [take_while drop_while]. destruct (p c); [|reflexivity].
  cbn [append]. now rewrite <- IH.
Qed.

(** A greedy star whose continuation cannot fail takes the whole run. *)
Lemma star_total cls (f : string -> Re.match_obj) s :
  Re.star cls s (fun s' => Some (f s')) = Some (f (drop_while cls s)).
Proof.
  induction s as [|c s IH]; [reflexivity|].
  cbn [Re.star drop_while]. destruct (cls c); [now rewrite IH | reflexivity].
Qed.

(** Blanks before the colon: the colon must follow the whole run. *)
Lemma star_space_colon (k : string -> option Re.match_obj) s :
  Re.star Py.is_space s
    (fun s1 => match Re.lit ":" s1 with Some s2 => k s2 | None => None end)
  = match Py.lstrip s with
    | String ":" x => k x
    | _ => None
    end.
Proof.
  induction s as [|c s IH]; [reflexivity|].
  cbn [Re.star Py.lstrip]. destruct (Py.is_space c) eqn:E.
  - rewrite IH.
    destruct (match Py.lstrip s with String ":" x => k x | _ => None end);
      [reflexivity|].
    cbn [Re.lit]. destruct (Ascii.eqb ":" c) eqn:Ec; [|reflexivity].
    apply Ascii.eqb_eq in Ec. subst c. discriminate.
  - cbn [Re.lit]. destruct (Ascii.eqb ":" c) eqn:Ec.
    + apply Ascii.eqb_eq in Ec. now subst c.
    + destruct c as [[] [] [] [] [] [] [] []]; try reflexivity.
      discriminate.
Qed.

Lemma space_in_setoff_cls c : Py.is_space c = true -> setoff_cls c = true.
Proof.
  intros H. unfold setoff_cls. rewrite H. now rewrite orb_true_r.
Qed.

Lemma last_blank_none s : last_blank s = None -> Py.lstrip s = s.
Proof.
  destruct s as [|c s]; [reflexivity|]. cbn [last_blank Py.lstrip].
  destruct (Py.is_space c); [|reflexivity].
  destruct (last_blank s); discriminate.
Qed.

Lemma take_while_nil_drop p s : take_while p s = "" -> drop_while p s = s.
Proof.
  destruct s as [|c s]; [reflexivity|]. cbn [take_while drop_while].
  destruct (p c); [discriminate | reflexivity].
Qed.

(** Blanks after the colon, then the capture: the capture starts at the
    first character that is not a blank, and takes back one blank when
    no character of the class stands there. *)
Lemma star_space_capture s3 :
  Re.star Py.is_space s3
    (fun s4 =>
       Re.plus setoff_cls s4
         (fun s5 =>
            Some (Re.MatchObj s5
                    (Some (Re.take (length s4 - length s5) s4)))))
  = match take_while setoff_cls (Py.lstrip s3) with
    | EmptyString =>
        match last_blank s3 with
        | Some b => Some (Re.MatchObj (Py.lstrip s3) (Some (String b "")))
        | None => None
        end
    | g => Some (Re.MatchObj (drop_while setoff_cls (Py.lstrip s3)) (Some g))
    end.
Proof.
  induction s3 as [|c s IH]; [reflexivity|].
  cbn [Re.star Py.lstrip last_blank]. destruct (Py.is_space c) eqn:Hc.
  - rewrite IH. destruct (take_while setoff_cls (Py.lstrip s)) eqn:Et;
      [|reflexivity].
    destruct (last_blank s) eqn:El; [reflexivity|].
    unfold Re.plus. rewrite (space_in_setoff_cls _ Hc).
    rewrite (star_total setoff_cls
               (fun s5 => Re.MatchObj s5
                  (Some (Re.take (length (String c s) - length s5)
                                 (String c s))))).
    rewrite (last_blank_none _ El) in *.
    rewrite (take_while_nil_drop _ _ Et).
    do 2 f_equal. f_equal. exact (take_app (String c "") s).
  - unfold Re.plus. cbn [take_while drop_while].
    destruct (setoff_cls c) eqn:Hs; [|reflexivity].
    rewrite (star_total setoff_cls
               (fun s5 => Re.MatchObj s5
                  (Some (Re.take (length (String c s) - length s5)
                                 (String c s))))).
    do 2 f_equal. f_equal.
    rewrite (take_drop_while setoff_cls s) at 1 3.
    exact (take_app (String c (take_while setoff_cls s))
                    (drop_while setoff_cls s)).
Qed.

Lemma match_at_setoff s : Re.match_at re_setoff s = setoff_match s.
Proof.
  unfold Re.match_at, re_setoff, setoff_match. cbn [Re.run].
  destruct (Re.lit "set-off" s) as [s1|]; [|reflexivity].
  rewrite (star_space_colon
             (fun s3 =>
                Re.star Py.is_space s3
                  (fun s4 =>
                     Re.plus setoff_cls s4
                       (fun s5 =>
                          Some (Re.MatchObj s5
                                  (Some (Re.take (length s4 - length s5)
                                                 s4))))))).
  destruct (Py.lstrip s1) as [|c x]; [reflexivity|].
  destruct c as [[] [] [] [] [] [] [] []]; try reflexivity.
  apply star_space_capture.
Qed.

(** X4: the backtracking match of the set-off pattern, described
    directly: after "set-off", blanks, a colon and blanks, the capture is
    the run of letters, blanks and hyphens that starts at the first
    character that is not a blank; when no such run starts there, the
    capture is the last blank after the colon, and without such a blank
    the pattern does not match. *)
Theorem setoff_pattern_without_backtracking (s : string) :
  Re.match_at re_setoff s = setoff_match s.
Proof.
  unfold Re.match_at, re_setoff, setoff_match. cbn [Re.run].
  destruct (Re.lit "set-off" s) as [s1|]; [|reflexivity].
  rewrite (star_space_colon
             (fun s3 =>
                Re.star Py.is_space s3
                  (fun s4 =>
                     Re.plus setoff_cls s4
                       (fun s5 =>
                          Some (Re.MatchObj s5
                                  (Some (Re.take (length s4 - length s5)
                                                 s4))))))).
  destruct (Py.lstrip s1) as [|c x]; [reflexivity|].
  destruct c as [[] [] [] [] [] [] [] []]; try reflexivity.
  apply star_space_capture.
Qed.

End CapturePattern.

Section CapturedPhrase.

Lemma startswith_app_long q a b :
  length q <= length a ->
  Py.startswith q (a ++ b) = true -> Py.startswith q a = true.
Proof.
  revert a. induction q as [|x q IH]; intros a Hl; [reflexivity|].
  destruct a as [|y a]; [simpl in Hl; lia|].
  cbn [append Py.startswith]. rewrite !andb_true_iff.
  intros [Hx H]. split; [exact Hx|]. apply IH; [simpl in Hl; lia | exact H].
Qed.

(** No match of the pattern starts before the first "set-off". *)
Lemma search_setoff_skip pre y :
  Py.str_in "set-off" (pre ++ "set-of") = false ->
  Re.search re_setoff (pre ++ "set-off" ++ y)
  = Re.search re_setoff ("set-off" ++ y).
Proof.
  induction pre as [|c pre IH]; [reflexivity|].
  intros H.
  change (String c pre ++ "set-of") with (String c (pre ++ "set-of")) in H.
  cbn [Py.str_in] in H. apply orb_false_iff in H as [Hs Hin].
  change (String c pre ++ "set-off" ++ y)
    with (String c (pre ++ "set-off" ++ y)).
  cbn [Re.search].
  assert (E : Re.match_at re_setoff (String c (pre ++ "set-off" ++ y)) = None).
  { destruct (Re.match_at re_setoff (String c (pre ++ "set-off" ++ y)))
      eqn:E; [|reflexivity].
    exfalso. unfold Re.match_at, re_setoff in E. cbn [Re.run] in E.
    destruct (Re.lit "set-off" (String c (pre ++ "set-off" ++ y))) eqn:El;
      [|discriminate].
    apply lit_startswith in El.
    change (String c (pre ++ "set-off" ++ y))
      with (String c pre ++ "set-of" ++ String "f" y) in El.
    rewrite <- app_assoc in El.
    apply startswith_app_long in El.
    - change (String c pre ++ "set-of") with (String c (pre ++ "set-of")) in El.
      congruence.
    - rewrite length_app. simpl. lia. }
  rewrite E. now apply IH.
Qed.

Lemma lstrip_blanks_app w z :
  all_chars Py.is_space w = true -> Py.lstrip (w ++ z) = Py.lstrip z.
Proof.
  induction w as [|c w IH]; [reflexivity|].
  cbn [all_chars append Py.lstrip]. rewrite andb_true_iff.
  intros [-> H]. now apply IH.
Qed.

Lemma lstrip_fixed_app g z :
  g <> "" -> Py.lstrip g = g -> Py.lstrip (g ++ z) = g ++ z.
Proof.
  destruct g as [|c g]; [congruence|]. intros _.
  cbn [append Py.lstrip]. destruct (Py.is_space c); [|reflexivity].
  intros H. exfalso. destruct (lstrip_suffix g) as [u Hu].
  apply (f_equal length) in H. rewrite Hu in H at 2.
  simpl in H. rewrite length_app in H. lia.
Qed.

Lemma take_while_app p g z :
  all_chars p g = true -> take_while p z = "" ->
  take_while p (g ++ z) = g /\ drop_while p (g ++ z) = z.
Proof.
  intros Hg Hz. induction g as [|c g IH].
  - split; [exact Hz | now apply take_while_nil_drop].
  - cbn [all_chars] in Hg. apply andb_true_iff in Hg as [Hc Hg].
    cbn [append take_while drop_while]. rewrite Hc.
    destruct (IH Hg) as [-> ->]. now split.
Qed.

(** The match found in a text whose first "set-off" is followed by a
    colon and a phrase of the class. *)
Lemma search_setoff_phrase pre w1 w2 g rest :
  Py.str_in "set-off" (pre ++ "set-of") = false ->
  all_chars Py.is_space w1 = true ->
  all_chars Py.is_space w2 = true ->
  g <> "" -> Py.lstrip g = g ->
  all_chars setoff_cls g = true ->
  take_while setoff_cls rest = "" ->
  Re.search re_setoff (pre ++ "set-off" ++ w1 ++ ":" ++ w2 ++ g ++ rest)
  = Some (Re.MatchObj rest (Some g)).
Proof.
  intros Hpre Hw1 Hw2 Hg Hl Hc Hr.
  rewrite (search_setoff_skip _ _ Hpre).
  assert (E : Re.match_at re_setoff
                ("set-off" ++ w1 ++ ":" ++ w2 ++ g ++ rest)
              = Some (Re.MatchObj rest (Some g))).
  { rewrite match_at_setoff. unfold setoff_match.
    change (Re.lit "set-off" ("set-off" ++ w1 ++ ":" ++ w2 ++ g ++ rest))
      with (Some (w1 ++ ":" ++ w2 ++ g ++ rest)).
    cbv iota beta. rewrite (lstrip_blanks_app _ _ Hw1).
    change (Py.lstrip (":" ++ w2 ++ g ++ rest))
      with (String ":" (w2 ++ g ++ rest)).
    cbv iota beta zeta.
    rewrite (lstrip_blanks_app _ _ Hw2), (lstrip_fixed_app _ _ Hg Hl).
    destruct (take_while_app setoff_cls g rest Hc Hr) as [-> ->].
    destruct g; [congruence | reflexivity]. }
  change ("set-off" ++ w1 ++ ":" ++ w2 ++ g ++ rest)
    with (String "s" ("et-off" ++ w1 ++ ":" ++ w2 ++ g ++ rest)) in *.
  cbn [Re.search]. now rewrite E.
Qed.

(** X5: in a text whose first "set-off" is followed by blanks, a colon,
    blanks and a phrase of letters, blanks and hyphens that starts with a
    letter or a hyphen and ends before a character outside that class (a
    pipe, a digit, the end of the text), the set-off tag is that phrase
    without its trailing blanks, in title case. *)
Theorem setoff_is_the_phrase_after_the_marker
        (text pre w1 w2 g rest : string) :
  Py.lower text = pre ++ "set-off" ++ w1 ++ ":" ++ w2 ++ g ++ rest ->
  Py.str_in "set-off" (pre ++ "set-of") = false ->
  all_chars Py.is_space w1 = true ->
  all_chars Py.is_space w2 = true ->
  g <> "" -> Py.lstrip g = g ->
  all_chars setoff_cls g = true ->
  take_while setoff_cls rest = "" ->
  exists r, parse_features_and_tags text = Ok r /\
            setoff r = Py.title (Py.rstrip g).
Proof.
  intros Ht Hpre Hw1 Hw2 Hg Hl Hc Hr.
  destruct (parse_ok text) as (s & Hs & Hp).
  eexists. split; [exact Hp|]. cbn [setoff].
  unfold setoff_of in Hs. rewrite Ht in Hs.
  assert (Hin : Py.str_in "set-off"
                  (pre ++ "set-off" ++ w1 ++ ":" ++ w2 ++ g ++ rest) = true).
  { apply str_in_spec. now exists pre, (w1 ++ ":" ++ w2 ++ g ++ rest). }
  rewrite Hin, (search_setoff_phrase _ _ _ _ _ Hpre Hw1 Hw2 Hg Hl Hc Hr) in Hs.
  unfold captured_phrase in Hs. cbn [Re.group1] in Hs.
  unfold Py.strip in Hs. rewrite Hl in Hs. congruence.
Qed.

Lemma setoff_is_the_phrase_after_the_marker_witness :
  exists r,
    parse_features_and_tags
      "Coles Based Clause 28.11 Apporach |Set-off: Annual | 557C condition on all shifts | After FWO"
    = Ok r /\
    setoff r = "Annual".
Proof.
  apply (setoff_is_the_phrase_after_the_marker
           "Coles Based Clause 28.11 Apporach |Set-off: Annual | 557C condition on all shifts | After FWO"
           "coles based clause 28.11 apporach |" "" " " "annual "
           "| 557c condition on all shifts | after fwo");
    try reflexivity.
  discriminate.
Defined.

End CapturedPhrase.

Section ShapeOfTheSetoffTag.

Lemma head_clean_lstrip s : head_clean (Py.lstrip s) = true.
Proof.
  induction s as [|c s IH]; [reflexivity|]. cbn [Py.lstrip].
  destruct (Py.is_space c) eqn:E; [exact IH|]. cbn. now rewrite E.
Qed.

Lemma last_clean_rstrip s : last_clean (Py.rstrip s) = true.
Proof.
  induction s as [|c s IH]; [reflexivity|]. cbn [Py.rstrip].
  destruct (Py.rstrip s) as [|d r].
  - destruct (Py.is_space c) eqn:E; [reflexivity|]. cbn. now rewrite E.
  - exact IH.
Qed.

Lemma head_clean_rstrip s : head_clean s = true -> head_clean (Py.rstrip s) = true.
Proof.
  destruct s as [|c s]; [reflexivity|]. cbn [head_clean].
  intros H. apply negb_true_iff in H.
  rewrite (rstrip_cons_nonspace _ _ H). cbn. now rewrite H.
Qed.

Lemma lstrip_clean s : head_clean s = true -> Py.lstrip s = s.
Proof.
  destruct s as [|c s]; [reflexivity|]. cbn.
  now destruct (Py.is_space c).
Qed.

Lemma rstrip_cons c s :
  Py.rstrip (String c s)
  = match Py.rstrip s with
    | EmptyString => if Py.is_space c then EmptyString else String c EmptyString
    | r => String c r
    end.
Proof. reflexivity. Qed.

Lemma rstrip_clean s : last_clean s = true -> Py.rstrip s = s.
Proof.
  induction s as [|c s IH]; [reflexivity|].
  destruct s as [|d s].
  - cbn. now destruct (Py.is_space c).
  - intros H. change (last_clean (String d s) = true) in H.
    rewrite rstrip_cons. now rewrite (IH H).
Qed.

Lemma strip_clean s :
  head_clean s = true -> last_clean s = true -> Py.strip s = s.
Proof.
  intros Hh Hl. unfold Py.strip. now rewrite (lstrip_clean _ Hh), (rstrip_clean _ Hl).
Qed.

Lemma strip_is_clean s :
  head_clean (Py.strip s) = true /\ last_clean (Py.strip s) = true.
Proof.
  unfold Py.strip. split.
  - apply head_clean_rstrip, head_clean_lstrip.
  - apply last_clean_rstrip.
Qed.

(** Stripping is idempotent. *)
Lemma strip_idem s : Py.strip (Py.strip s) = Py.strip s.
Proof. apply strip_clean; apply strip_is_clean. Qed.

Lemma all_chars_lstrip p s :
  all_chars p s = true -> all_chars p (Py.lstrip s) = true.
Proof.
  induction s as [|c s IH]; [reflexivity|]. cbn [Py.lstrip].
  destruct (Py.is_space c); [|trivial].
  cbn [all_chars]. rewrite andb_true_iff. intros [_ H]. now apply IH.
Qed.

Lemma all_chars_rstrip p s :
  all_chars p s = true -> all_chars p (Py.rstrip s) = true.
Proof.
  induction s as [|c s IH]; [reflexivity|].
  cbn [all_chars]. rewrite andb_true_iff. intros [Hc H].
  specialize (IH H). cbn [Py.rstrip]. destruct (Py.rstrip s) as [|d r].
  - destruct (Py.is_space c); [reflexivity|]. cbn. now rewrite Hc.
  - cbn [all_chars] in *. now rewrite Hc, IH.
Qed.

(** [title] on one character of the capture class. *)
Lemma title_char_shape (b : bool) c :
  setoff_cls c = true ->
  let c' := if Py.is_cased c
            then if b then Py.lower_char c else Py.upper_char c
            else c in
  tag_char c' = true /\ Py.is_space c' = Py.is_space c.
Proof.
  destruct c as [[] [] [] [] [] [] [] []]; destruct b;
    vm_compute; intros H; first [discriminate H | split; reflexivity].
Qed.

Lemma title_from_tag_chars s : forall b,
  all_chars setoff_cls s = true ->
  all_chars tag_char (Py.title_from b s) = true.
Proof.
  induction s as [|c s IH]; intros b; [reflexivity|].
  cbn [all_chars Py.title_from]. rewrite andb_true_iff. intros [Hc H].
  destruct (title_char_shape b c Hc) as [-> _]. now apply IH.
Qed.

Lemma title_from_head_clean s b :
  all_chars setoff_cls s = true ->
  head_clean (Py.title_from b s) = head_clean s.
Proof.
  destruct s as [|c s]; [reflexivity|].
  cbn [all_chars Py.title_from head_clean]. rewrite andb_true_iff.
  intros [Hc _]. destruct (title_char_shape b c Hc) as [_ ->]. reflexivity.
Qed.

Lemma title_from_last_clean s : forall b,
  all_chars setoff_cls s = true ->
  last_clean (Py.title_from b s) = last_clean s.
Proof.
  induction s as [|c s IH]; intros b; [reflexivity|].
  cbn [all_chars]. rewrite andb_true_iff. intros [Hc H].
  destruct s as [|d s].
  - cbn [Py.title_from last_clean].
    destruct (title_char_shape b c Hc) as [_ ->]. reflexivity.
  - specialize (IH (Py.is_cased c) H).
    cbn [Py.title_from last_clean] in *. exact IH.
Qed.

(** The tag made from a capture: letters, blanks and hyphens, without
    blanks at its ends. *)
Lemma captured_phrase_shape g :
  all_chars setoff_cls g = true ->
  all_chars tag_char (Py.title (Py.strip g)) = true /\
  Py.strip (Py.title (Py.strip g)) = Py.title (Py.strip g).
Proof.
  intros Hg.
  assert (Hs : all_chars setoff_cls (Py.strip g) = true)
    by (unfold Py.strip; now apply all_chars_rstrip, all_chars_lstrip).
  destruct (strip_is_clean g) as [Hh Hl].
  split; [now apply title_from_tag_chars|].
  apply strip_clean; unfold Py.title.
  - now rewrite title_from_head_clean.
  - now rewrite title_from_last_clean.
Qed.

(** X6: whatever the text, the set-off tag consists of ASCII letters,
    blanks and hyphens only and has no blank at either end: this holds
    for the title-cased capture as for the keyword values and Unknown. *)
Theorem setoff_tag_shape (text : string) :
  exists r, parse_features_and_tags text = Ok r /\
    all_chars tag_char (setoff r) = true /\
    Py.strip (setoff r) = setoff r.
Proof.
  destruct (parse_ok text) as (s & Hs & Hp).
  eexists. split; [exact Hp|]. cbn [setoff].
  unfold setoff_of in Hs.
  destruct (Py.str_in "set-off" (Py.lower text));
    [|injection Hs as <-; split; reflexivity].
  destruct (Re.search re_setoff (Py.lower text)) as [m|] eqn:E.
  - destruct (setoff_capture_class _ _ E) as (g & Hg & _ & Hc).
    unfold captured_phrase in Hs. rewrite Hg in Hs. injection Hs as <-.
    now apply captured_phrase_shape.
  - rewrite (search_pipe_dead _ E) in Hs. injection Hs as <-.
    unfold setoff_keywords.
    destruct (Py.str_in "pay period" _); [split; reflexivity|].
    destruct (Py.str_in "annual" _); [split; reflexivity|].
    destruct (_ || _); split; reflexivity.
Qed.

Lemma title_empty s : String.eqb (Py.title s) "" = String.eqb s "".
Proof. now destruct s. Qed.

(** X7: the set-off tag is the empty string exactly when the pattern
    matches with a blank capture; the keyword scan and the default never
    give an empty tag. *)
Theorem setoff_empty_iff_blank_capture (text : string) :
  exists r, parse_features_and_tags text = Ok r /\
    String.eqb (setoff r) "" = blank_capture (Py.lower text).
Proof.
  destruct (parse_ok text) as (s & Hs & Hp).
  eexists. split; [exact Hp|]. cbn [setoff].
  unfold setoff_of in Hs. unfold blank_capture.
  destruct (Re.search re_setoff (Py.lower text)) as [m|] eqn:E.
  - rewrite (search_setoff_mentions _ _ E) in Hs.
    destruct (setoff_capture_class _ _ E) as (g & Hg & _ & _).
    unfold captured_phrase in Hs. rewrite Hg in *. injection Hs as <-.
    apply title_empty.
  - rewrite (search_pipe_dead _ E) in Hs.
    destruct (Py.str_in "set-off" (Py.lower text));
      [|now injection Hs as <-].
    injection Hs as <-. unfold setoff_keywords.
    destruct (Py.str_in "pay period" _); [reflexivity|].
    destruct (Py.str_in "annual" _); [reflexivity|].
    now destruct (_ || _).
Qed.

End ShapeOfTheSetoffTag.

(* ================================================================== *)
(** * Further properties of the label *)
(* ================================================================== *)

Section LabelShape.

Lemma sep_at_inv s after :
  sep_at s = Some after ->
  exists x, Py.lstrip s = String "|" x /\ after = Py.lstrip x.
Proof.
  unfold sep_at. destruct (Py.lstrip s) as [|c x]; [discriminate|].
  destruct c as [[] [] [] [] [] [] [] []]; try discriminate.
  intros [= <-]. now exists x.
Qed.

Lemma remove_blanks_lstrip s : remove_blanks (Py.lstrip s) = remove_blanks s.
Proof.
  induction s as [|c s IH]; [reflexivity|].
  cbn [Py.lstrip remove_blanks]. destruct (Py.is_space c) eqn:E; [exact IH|].
  cbn [remove_blanks]. now rewrite E.
Qed.

Lemma remove_blanks_rstrip s : remove_blanks (Py.rstrip s) = remove_blanks s.
Proof.
  induction s as [|c s IH]; [reflexivity|].
  rewrite rstrip_cons. cbn [remove_blanks]. rewrite <- IH.
  destruct (Py.rstrip s) as [|d r].
  - destruct (Py.is_space c) eqn:E; [reflexivity|].
    cbn [remove_blanks]. now rewrite E.
  - reflexivity.
Qed.

Lemma remove_blanks_space_pipes s :
  remove_blanks (space_pipes s) = remove_blanks s.
Proof.
  induction s as [|c s E IH|s after E IH] using space_pipes_ind.
  - reflexivity.
  - rewrite (space_pipes_keep _ _ E). cbn [remove_blanks]. now rewrite IH.
  - rewrite (space_pipes_sep _ _ E).
    destruct (sep_at_inv _ _ E) as (x & Hx & ->).
    rewrite <- (remove_blanks_lstrip s), Hx.
    change (remove_blanks (" | " ++ space_pipes (Py.lstrip x)))
      with (String "|" (remove_blanks (space_pipes (Py.lstrip x)))).
    change (remove_blanks (String "|" x)) with (String "|" (remove_blanks x)).
    now rewrite IH, remove_blanks_lstrip.
Qed.

(** X8: the cleanup after the spelling correction only adds or removes
    blanks: without its blanks the label is the corrected text without
    its blanks, so no other character, pipes included, is added, dropped
    or moved. *)
Theorem label_same_up_to_blanks (text : string) :
  exists r, parse_features_and_tags text = Ok r /\
    remove_blanks (label r) = remove_blanks (fix_spelling text).
Proof.
  destruct (parse_ok text) as (s & _ & Hp).
  eexists. split; [exact Hp|]. cbn [label].
  rewrite label_of_steps. unfold Py.strip.
  now rewrite remove_blanks_rstrip, remove_blanks_lstrip,
    remove_blanks_space_pipes.
Qed.

(** X9: the label has no blank at either end, so stripping it again
    changes nothing. *)
Theorem label_has_no_outer_blanks (text : string) :
  exists r, parse_features_and_tags text = Ok r /\
    head_clean (label r) = true /\
    last_clean (label r) = true /\
    Py.strip (label r) = label r.
Proof.
  destruct (parse_ok text) as (s & _ & Hp).
  eexists. split; [exact Hp|]. cbn [label]. rewrite label_of_steps.
  destruct (strip_is_clean (space_pipes (fix_spelling text))) as [Hh Hl].
  split; [exact Hh|]. split; [exact Hl|]. apply strip_idem.
Qed.

(** Every pipe written by the scan stands between two spaces. *)
Lemma spaced_space_pipes s : forall b, spaced b (space_pipes s) = true.
Proof.
  induction s as [|c s E IH|s after E IH] using space_pipes_ind; intros b.
  - reflexivity.
  - rewrite (space_pipes_keep _ _ E). cbn [spaced].
    rewrite IH, andb_true_r.
    destruct (Ascii.eqb c "|") eqn:Ec; [|reflexivity].
    apply Ascii.eqb_eq in Ec. subst c. discriminate.
  - rewrite (space_pipes_sep _ _ E).
    change (spaced b (" | " ++ space_pipes after))
      with (spaced true (space_pipes after)).
    apply IH.
Qed.

Lemma spaced_split a : forall b z,
  spaced b (a ++ "|" ++ z) = true ->
  (if String.eqb a "" then b else ends_space a) = true /\
  starts_space z = true.
Proof.
  induction a as [|c a IH]; intros b z.
  - cbn. rewrite !andb_true_iff. tauto.
  - change (spaced b (String c a ++ "|" ++ z))
      with ((if Ascii.eqb c "|" then b && starts_space (a ++ "|" ++ z)
             else true)
            && spaced (Ascii.eqb c " ") (a ++ "|" ++ z)).
    rewrite andb_true_iff. intros [_ H]. apply IH in H as [H Hz].
    split; [|exact Hz]. cbn [String.eqb].
    destruct a as [|d a]; [exact H | exact H].
Qed.

Lemma ends_space_app u a : a <> "" -> ends_space (u ++ a) = ends_space a.
Proof.
  intros Ha. induction u as [|c u IH]; [reflexivity|].
  cbn [append]. destruct (u ++ a) eqn:E.
  - destruct u; [cbn in E; congruence | discriminate].
  - exact IH.
Qed.

Lemma label_pipe_spaced text a z :
  label_of text = a ++ "|" ++ z ->
  (a = "" \/ ends_space a = true) /\ (z = "" \/ starts_space z = true).
Proof.
  rewrite label_of_steps. unfold Py.strip. intros H.
  destruct (lstrip_suffix (space_pipes (fix_spelling text))) as [u Hu].
  destruct (rstrip_prefix (Py.lstrip (space_pipes (fix_spelling text))))
    as [v Hv].
  rewrite H in Hv. rewrite Hv in Hu.
  pose proof (spaced_space_pipes (fix_spelling text) false) as Hs.
  rewrite Hu in Hs.
  replace (u ++ (a ++ "|" ++ z) ++ v) with ((u ++ a) ++ "|" ++ (z ++ v)) in Hs
    by (rewrite !app_assoc; reflexivity).
  apply spaced_split in Hs as [Ha Hz]. split.
  - destruct a as [|c a]; [now left|]. right.
    rewrite <- (ends_space_app u (String c a)) by discriminate.
    destruct (u ++ String c a) eqn:E; [|exact Ha].
    destruct u; discriminate.
  - destruct z as [|c z]; [now left|]. right. exact Hz.
Qed.

(** X10: in the label every pipe has a space on its left unless it is
    the first character, and a space on its right unless it is the last
    one. *)
Theorem label_pipes_are_spaced (text a z : string) :
  label_of text = a ++ "|" ++ z ->
  exists r, parse_features_and_tags text = Ok r /\
    label r = a ++ "|" ++ z /\
    (a = "" \/ ends_space a = true) /\
    (z = "" \/ starts_space z = true).
Proof.
  intros H. destruct (parse_ok text) as (s & _ & Hp).
  eexists. split; [exact Hp|]. cbn [label]. split; [exact H|].
  now apply (label_pipe_spaced text).
Qed.

Lemma label_pipes_are_spaced_witness :
  exists r,
    parse_features_and_tags "Coles Based  |Without FWO|" = Ok r /\
    label r = "Coles Based | Without FWO |" /\
    ("Coles Based | Without FWO " = "" \/
     ends_space "Coles Based | Without FWO " = true) /\
    ("" = "" \/ starts_space "" = true).
Proof.
  apply (label_pipes_are_spaced "Coles Based  |Without FWO|"
           "Coles Based | Without FWO " "").
  reflexivity.
Defined.

Lemma sep_at_has_pipe s after :
  sep_at s = Some after -> Py.str_in "|" s = true.
Proof.
  intros H. destruct (sep_at_inv _ _ H) as (x & Hx & _).
  destruct (lstrip_suffix s) as [u Hu]. rewrite Hx in Hu.
  apply str_in_spec. now exists u, x.
Qed.

Lemma space_pipes_no_pipe s : Py.str_in "|" s = false -> space_pipes s = s.
Proof.
  induction s as [|c s IH]; [reflexivity|]. intros H.
  destruct (sep_at (String c s)) eqn:E.
  - apply sep_at_has_pipe in E. congruence.
  - rewrite (space_pipes_keep _ _ E). f_equal. apply IH.
    cbn [Py.str_in] in H. now apply orb_false_iff in H.
Qed.

Lemma str_in_drop p n : forall s,
  Py.str_in p (drop n s) = true -> Py.str_in p s = true.
Proof.
  induction n as [|n IH]; intros s; [now rewrite drop_0|].
  destruct s as [|c s]; [trivial|]. cbn [drop]. intros H.
  apply str_in_cons. now apply IH.
Qed.

Lemma fix_spelling_no_pipe s :
  Py.str_in "|" s = false -> Py.str_in "|" (fix_spelling s) = false.
Proof.
  induction s as [|c s E IH|s E IH] using fix_spelling_ind; intros H.
  - reflexivity.
  - rewrite (fix_spelling_miss _ _ E). cbn [Py.str_in] in *.
    apply orb_false_iff in H as [Hc H]. rewrite (IH H), orb_false_r.
    cbn [Py.startswith] in *. exact Hc.
  - rewrite (fix_spelling_hit _ E).
    change (Py.str_in "|" ("Approach" ++ fix_spelling (drop 8 s)))
      with (Py.str_in "|" (fix_spelling (drop 8 s))).
    apply IH. destruct (Py.str_in "|" (drop 8 s)) eqn:Ed; [|reflexivity].
    apply str_in_drop in Ed. congruence.
Qed.

(** X11: a text without a pipe is only corrected and stripped; if it
    does not contain the exact misspelling either, its label is the
    stripped text. *)
Theorem label_without_pipe (text : string) :
  Py.str_in "|" text = false ->
  exists r, parse_features_and_tags text = Ok r /\
    label r = Py.strip (fix_spelling text) /\
    (Py.str_in "Apporach" text = false -> label r = Py.strip text).
Proof.
  intros H. destruct (parse_ok text) as (s & _ & Hp).
  eexists. split; [exact Hp|]. cbn [label]. rewrite label_of_steps.
  rewrite (space_pipes_no_pipe _ (fix_spelling_no_pipe _ H)).
  split; [reflexivity|]. intros Hm. now rewrite (fix_spelling_id _ Hm).
Qed.

Lemma label_without_pipe_witness :
  exists r,
    parse_features_and_tags "  Coles Based apporach, after FWO " = Ok r /\
    label r = "Coles Based apporach, after FWO".
Proof.
  destruct (label_without_pipe "  Coles Based apporach, after FWO ")
    as (r & Hr & _ & H); [reflexivity|].
  exists r. split; [exact Hr | apply H; reflexivity].
Defined.

End LabelShape.

(* ================================================================== *)
(** * Properties of the dashboard's filters and badges *)
(* ================================================================== *)

Section DashboardFacts.

Variable value : Type.

Lemma filter_filter (p q : Row value -> bool) l :
  filter q (filter p l) = filter (fun r => p r && q r) l.
Proof.
  induction l as [|x l IH]; [reflexivity|]. cbn [filter].
  destruct (p x); cbn [filter andb]; [|exact IH].
  destruct (q x); now rewrite IH.
Qed.

Lemma filter_all (l : list (Row value)) : filter (fun _ => true) l = l.
Proof. induction l as [|x l IH]; [reflexivity|]. cbn. now rewrite IH. Qed.

Lemma filter_same (p q : Row value -> bool) l :
  (forall r, p r = q r) -> filter p l = filter q l.
Proof.
  intros H. induction l as [|x l IH]; [reflexivity|].
  cbn [filter]. now rewrite H, IH.
Qed.

(** One optional filter step, as a filter that may be trivial. *)
Lemma filter_step (guard : bool) col sel (l : list (Row value)) :
  (if guard then where_eq col sel l else l)
  = filter (fun r => negb guard || String.eqb (col (row_tags r)) sel) l.
Proof.
  destruct guard; [reflexivity|]. cbn [negb orb]. now rewrite filter_all.
Qed.

Lemma apply_filters_one_filter show a f s c (df : list (Row value)) :
  apply_filters show a f s c df = filter (row_matches show a f s c) df.
Proof.
  unfold apply_filters. cbv zeta. rewrite !filter_step, !filter_filter.
  apply filter_same. intros r. unfold row_matches.
  rewrite !negb_involutive, negb_andb, negb_involutive.
  now rewrite !andb_assoc.
Qed.

(** X12: the four filter steps amount to one pass that keeps, in their
    order, the rows matching every selection other than "All" (the 557C
    selection only when that filter is shown); filtering twice with the
    same selections changes nothing, and with "All" everywhere the table
    is unchanged. *)
Theorem apply_filters_conjunction show a f s c (df : list (Row value)) :
  apply_filters show a f s c df = filter (row_matches show a f s c) df /\
  apply_filters show a f s c (apply_filters show a f s c df)
  = apply_filters show a f s c df /\
  apply_filters show "All" "All" "All" "All" df = df.
Proof.
  split; [apply apply_filters_one_filter|]. split.
  - rewrite !apply_filters_one_filter, filter_filter.
    apply filter_same. intros r. apply andb_diag.
  - rewrite apply_filters_one_filter.
    rewrite (filter_same _ (fun _ => true)); [apply filter_all|].
    intros r. unfold row_matches. cbn. now destruct show.
Qed.

Lemma in_insert_sorted x y l : In x (insert_sorted y l) <-> x = y \/ In x l.
Proof.
  induction l as [|z l IH]; cbn [insert_sorted].
  - cbn. intuition congruence.
  - destruct (String.ltb y z); cbn [In]; [intuition congruence|].
    rewrite IH. intuition congruence.
Qed.

Lemma in_sorted_acc x l : forall acc,
  In x (fold_left (fun acc y => insert_sorted y acc) l acc)
  <-> In x l \/ In x acc.
Proof.
  induction l as [|y l IH]; intros acc; cbn [fold_left In].
  - tauto.
  - rewrite IH, in_insert_sorted. intuition congruence.
Qed.

Lemma in_sorted x l : In x (sorted l) <-> In x l.
Proof. unfold sorted. rewrite in_sorted_acc. cbn. tauto. Qed.

Lemma in_unique x l : In x (unique l) <-> In x l.
Proof.
  induction l as [|y l IH]; [reflexivity|]. cbn [unique In].
  rewrite filter_In, IH, negb_true_iff, String.eqb_neq.
  destruct (string_dec y x) as [->|Hn]; [tauto|].
  intuition congruence.
Qed.

Lemma nodup_unique l : NoDup (unique l).
Proof.
  induction l as [|y l IH]; cbn [unique]; constructor.
  - rewrite filter_In, negb_true_iff, String.eqb_neq. tauto.
  - now apply NoDup_filter.
Qed.

Lemma nodup_insert_sorted x l :
  ~ In x l -> NoDup l -> NoDup (insert_sorted x l).
Proof.
  induction l as [|z l IH]; intros Hx Hl; cbn [insert_sorted].
  - constructor; [exact Hx | constructor].
  - destruct (String.ltb x z); [now constructor|].
    inversion Hl as [|? ? Hz Hl']; subst. constructor.
    + rewrite in_insert_sorted. cbn in Hx. intuition congruence.
    + apply IH; [cbn in Hx; tauto | exact Hl'].
Qed.

Lemma nodup_sorted_acc l : forall acc,
  NoDup l -> NoDup acc -> (forall x, In x l -> ~ In x acc) ->
  NoDup (fold_left (fun acc y => insert_sorted y acc) l acc).
Proof.
  induction l as [|y l IH]; intros acc Hl Hacc Hd; [exact Hacc|].
  cbn [fold_left]. inversion Hl as [|? ? Hy Hl']; subst.
  apply IH; [exact Hl' | |].
  - apply nodup_insert_sorted; [apply Hd; now left | exact Hacc].
  - intros x Hx. rewrite in_insert_sorted. intros [->|Hin]; [tauto|].
    apply (Hd x); [now right | exact Hin].
Qed.

Lemma ltb_asym x y : String.ltb x y = true -> String.ltb y x = false.
Proof.
  unfold String.ltb. rewrite (String.compare_antisym y x).
  now destruct (String.compare x y).
Qed.

Lemma sorted_insert_sorted x l :
  Sorted str_le l -> Sorted str_le (insert_sorted x l).
Proof.
  induction l as [|z l IH]; intros Hl; cbn [insert_sorted].
  - repeat constructor.
  - destruct (String.ltb x z) eqn:E.
    + constructor; [exact Hl|]. constructor. now apply ltb_asym.
    + inversion Hl as [|? ? Hl' Hz]; subst. constructor; [now apply IH|].
      destruct l as [|w l]; cbn [insert_sorted].
      * constructor. exact E.
      * destruct (String.ltb x w); constructor; [exact E|].
        now inversion Hz.
Qed.

Lemma sorted_sorted_acc l : forall acc,
  Sorted str_le acc ->
  Sorted str_le (fold_left (fun acc y => insert_sorted y acc) l acc).
Proof.
  induction l as [|y l IH]; intros acc Hacc; [exact Hacc|].
  cbn [fold_left]. apply IH. now apply sorted_insert_sorted.
Qed.

(** X13: the options of a filter are "All" followed by the values of the
    tag column, each exactly once and in increasing order; every value
    of the column is offered. *)
Theorem options_structure (col : ScenarioTags -> string) (df : list (Row value)) :
  exists values,
    options col df = "All" :: values /\
    NoDup values /\
    Sorted str_le values /\
    (forall v, In v values <-> exists row, In row df /\ col (row_tags row) = v).
Proof.
  eexists. split; [reflexivity|]. split; [|split].
  - apply nodup_sorted_acc; [apply nodup_unique | constructor | auto].
  - apply sorted_sorted_acc. constructor.
  - intros v. rewrite in_sorted, in_unique, in_map_iff.
    split; intros (row & H1 & H2); exists row; tauto.
Qed.


End DashboardFacts.

Section Badges.

Variable value : Type.


(** X15: the badges of a card whose tags come from the extractor: the
    approach and FWO badges appear exactly when the text mentions one of
    their phrases, the set-off badge unless the tag is Unknown (an empty
    tag gives the badge "Set-off: "), and the 557C badge exactly when
    the 557C filter is shown and the text mentions "557c"; the order is
    approach, FWO, set-off, 557C. *)
Theorem badges_of_extracted_tags (show : bool) (text color : string)
        (v : value) (features : list string) :
  exists r, parse_features_and_tags text = Ok r /\
    badges show {| row_category := text; row_value := v;
                   row_color := color; row_features := features;
                   row_tags := r |}
    = ((if mentions "judgement based" text || mentions "coles based" text
        then [approach r] else []) ++
       (if mentions "without fwo" text || mentions "with fwo" text
           || mentions "after fwo" text
        then [fwo r] else []) ++
       (if String.eqb (setoff r) "Unknown" then []
        else [("Set-off: " ++ setoff r)%string]) ++
       (if show && mentions "557c" text
        then [("557C: " ++ cond_557c r)%string] else []))%list.
Proof.
  destruct (parse_ok text) as (s & _ & Hp).
  eexists. split; [exact Hp|].
  unfold badges, mentions, approach_of, fwo_of, cond_557c_of.
  cbn [row_tags approach fwo setoff cond_557c].
  destruct (Py.str_in "judgement based" _), (Py.str_in "coles based" _);
    cbn [orb String.eqb Ascii.eqb Bool.eqb negb app];
    destruct (Py.str_in "without fwo" _), (Py.str_in "with fwo" _),
             (Py.str_in "after fwo" _);
    cbn [orb String.eqb Ascii.eqb Bool.eqb negb app];
    destruct (String.eqb s "Unknown");
    cbn [negb app];
    destruct show; cbn [andb app]; try reflexivity;
    destruct (Py.str_in "557c" _); try reflexivity;
    destruct (Py.str_in "all shifts" _); try reflexivity;
    destruct (_ || _); reflexivity.
Qed.

End Badges.

Section WithoutColon.

Lemma lit_app p : forall s s1, Re.lit p s = Some s1 -> s = p ++ s1.
Proof.
  induction p as [|a p IH]; intros s s1; cbn [Re.lit].
  - now intros [= ->].
  - destruct s as [|b s]; [discriminate|].
    destruct (Ascii.eqb a b) eqn:E; [|discriminate].
    apply Ascii.eqb_eq in E. subst b. intros H.
    cbn [append]. now rewrite (IH _ _ H).
Qed.

Lemma search_match_suffix r t m :
  Re.search r t = Some m ->
  exists u s, t = u ++ s /\ Re.match_at r s = Some m.
Proof.
  induction t as [|c t IH]; cbn [Re.search].
  - destruct (Re.match_at r "") eqn:E; [|discriminate].
    intros [= <-]. now exists "", "".
  - destruct (Re.match_at r (String c t)) eqn:E.
    + intros [= <-]. now exists "", (String c t).
    + intros H. destruct (IH H) as (u & s & -> & Hs).
      now exists (String c u), s.
Qed.

(** The pattern only matches a text with a colon. *)
Lemma search_setoff_colon t m :
  Re.search re_setoff t = Some m -> Py.str_in ":" t = true.
Proof.
  intros H. apply search_match_suffix in H as (u & s & -> & H).
  rewrite match_at_setoff in H. unfold setoff_match in H.
  destruct (Re.lit "set-off" s) as [s1|] eqn:El; [|discriminate].
  apply lit_app in El. subst s.
  destruct (lstrip_suffix s1) as [w Hw].
  destruct (Py.lstrip s1) as [|c x]; [discriminate|].
  destruct c as [[] [] [] [] [] [] [] []]; try discriminate.
  apply str_in_spec. exists (u ++ "set-off" ++ w), x.
  rewrite Hw at 1. now rewrite !app_assoc.
Qed.

Lemma colon_uncased a c :
  In a (list_ascii_of_string ":") ->
  Ascii.eqb a (Py.lower_char c) = Ascii.eqb a c.
Proof.
  cbn. intros [<-|[]]. destruct c as [[] [] [] [] [] [] [] []]; reflexivity.
Qed.

(** X16: in a text without a colon the capture never applies: the
    set-off tag is Unknown unless the text mentions "set-off", and then
    it is Pay Period if the text mentions "pay period", else Annual if
    it mentions "annual", else Unknown. *)
Theorem setoff_without_colon (text : string) :
  Py.str_in ":" text = false ->
  exists r, parse_features_and_tags text = Ok r /\
    setoff r =
    if mentions "set-off" text then
      if mentions "pay period" text then "Pay Period"
      else if mentions "annual" text then "Annual"
      else "Unknown"
    else "Unknown".
Proof.
  intros H. destruct (parse_ok text) as (s & Hs & Hp).
  eexists. split; [exact Hp|]. cbn [setoff]. unfold mentions.
  unfold setoff_of in Hs.
  destruct (Py.str_in "set-off" (Py.lower text)); [|congruence].
  destruct (Re.search re_setoff (Py.lower text)) as [m|] eqn:E.
  - apply search_setoff_colon in E.
    rewrite (str_in_lower ":" colon_uncased) in E. congruence.
  - rewrite (search_pipe_dead _ E) in Hs. injection Hs as <-.
    unfold setoff_keywords.
    destruct (Py.str_in "pay period" _); [reflexivity|].
    destruct (Py.str_in "annual" _) eqn:Ha; [reflexivity|].
    destruct (_ || _) eqn:Hb; [|reflexivity].
    apply biannual_mentions_annual in Hb. congruence.
Qed.

Lemma setoff_without_colon_witness :
  exists r, parse_features_and_tags "Set-off annual | With FWO" = Ok r /\
            setoff r = "Annual".
Proof.
  apply (setoff_without_colon "Set-off annual | With FWO"). reflexivity.
Defined.

End WithoutColon.
